(** * Student portfolio page ([src/js/main.js]): data loading, rendering
    and the interaction controller.

    The page script is embedded shallowly:
    - markup is the byte string the template literals build;
    - the document is a finite map from element ids to elements, next to
      the lists a selector returns for [.nav-link] and [section[id]];
      the [.stat-number] counters and their observer are a state of
      their own;
    - code that can throw runs in a state-and-exception monad, so that a
      [try]/[catch] and an unguarded dereference of [null] read as in the
      script. *)

From Stdlib Require Import ZArith QArith Qround String Ascii List Lia.
From Stdlib Require Import DecimalString DecimalZ DecimalNat.
From stdpp Require Import gmap strings list.

Local Open Scope string_scope.
Local Open Scope list_scope.

(** ** Strings of the script *)

(** The double quote of an HTML attribute. *)
Definition dquote : ascii := ascii_of_nat 34.

(** A template literal's fixed text. The script writes attribute values
    between double quotes and never uses a single quote inside a
    template; here the fixed text is written with single quotes and
    [tpl] puts the double quotes back, byte for byte. *)
Fixpoint tpl (s : string) : string :=
  match s with
  | EmptyString => EmptyString
  | String c s' => String (if Ascii.eqb c "'" then dquote else c) (tpl s')
  end.

(** [`${n}`] for a non-negative integer [n] (an array index, or an index
    times one hundred): its decimal digits. *)
Definition showNat (n : nat) : string := NilEmpty.string_of_uint (Nat.to_uint n).

(** [`${z}`] for an integer. *)
Definition showZ (z : Z) : string := NilEmpty.string_of_int (Z.to_int z).

(** [Array.prototype.join('')]. *)
Definition join (parts : list string) : string := String.concat EmptyString parts.

(** ** Values read from a JSON document *)

(** The primitive values a field of a parsed document can hold
    ([JsUndefined] for a field that is absent). The numbers that are
    modelled are the integers. *)
Inductive JsValue : Type :=
| JsUndefined
| JsNull
| JsBool (b : bool)
| JsNumber (n : Z)
| JsString (s : string).

(** ECMAScript [ToBoolean]: what [!v] negates. *)
Definition ToBoolean (v : JsValue) : bool :=
  match v with
  | JsUndefined | JsNull => false
  | JsBool b => b
  | JsNumber n => negb (n =? 0)%Z
  | JsString s => negb (String.eqb s EmptyString)
  end.

(** ECMAScript [ToString], as a template literal applies it. For a
    number it is the plain decimal, which is what the script prints for
    the safe integers below: from 2^53 a Number no longer holds every
    integer, and from 10^21 it is printed with an exponent. What is
    proved about the text of a number is proved for safe integers. *)
Definition ToString (v : JsValue) : string :=
  match v with
  | JsUndefined => "undefined"
  | JsNull => "null"
  | JsBool true => "true"
  | JsBool false => "false"
  | JsNumber n => showZ n
  | JsString s => s
  end.

(** The integers that a Number holds exactly and that [ToString] prints
    in plain decimal digits: those of magnitude below 2^53. A value
    read from JSON that is a number is taken to be one of these. *)
Definition safe_integer (n : Z) : bool := (Z.abs n <? 2 ^ 53)%Z.

Definition safe_value (v : JsValue) : bool :=
  match v with
  | JsNumber n => safe_integer n
  | _ => true
  end.

(** ** Data model (the four documents) *)

Module Lab.
Record t : Type := mk { title : string; link : string }.
End Lab.

Module Semester.
Record t : Type := mk { title : string; labs : list Lab.t }.
End Semester.

Module EducationModule.
Record t : Type := mk { title : string; semesters : list Semester.t }.
End EducationModule.

Module Coursework.
Record t : Type := mk {
  title : string;
  semester : string;
  description : string;
  technologies : list string;
  link : string
}.
End Coursework.

Module PracticalWork.
Record t : Type := mk {
  title : string;
  semester : string;
  description : string;
  items : list string;
  link : string
}.
End PracticalWork.

(** The thesis is a single object. Its fields are read without any check
    of their type, and the slot starts as [{}], so every field may be
    absent: [keyFeatures] is [None] when the object has no such array. *)
Module Thesis.
Record t : Type := mk {
  title : JsValue;
  topic : JsValue;
  description : JsValue;
  keyFeatures : option (list string);
  link : JsValue
}.
(** [let thesisData = {};] *)
Definition empty : t := mk JsUndefined JsUndefined JsUndefined None JsUndefined.
End Thesis.

(** ** The document *)

(** [DOMTokenList] operations of an element's [classList]. *)
Definition classList_contains (c : string) (l : list string) : bool := bool_decide (c ∈ l).
Definition classList_add (c : string) (l : list string) : list string :=
  if classList_contains c l then l else l ++ [c].
Definition classList_remove (c : string) (l : list string) : list string :=
  filter (λ x, x ≠ c) l.
Definition classList_toggle (c : string) (l : list string) : list string :=
  if classList_contains c l then classList_remove c l else classList_add c l.

(** An element that the script reaches through [getElementById]: the
    parts of it the script reads or writes. [display] and [transform] are
    the inline [style.display] and [style.transform], the empty string
    when the element has no such inline style. *)
Module Element.
Record t : Type := mk {
  innerHTML : string;
  classList : list string;
  display : string;
  transform : string
}.
Definition set_innerHTML (html : string) (e : t) : t :=
  mk html (classList e) (display e) (transform e).
Definition set_classList (l : list string) (e : t) : t :=
  mk (innerHTML e) l (display e) (transform e).
Definition set_display (d : string) (e : t) : t :=
  mk (innerHTML e) (classList e) d (transform e).
Definition set_transform (tr : string) (e : t) : t :=
  mk (innerHTML e) (classList e) (display e) tr.
End Element.

(** An element of class [nav-link]. *)
Module NavLink.
Record t : Type := mk { href : string; classList : list string }.
Definition set_classList (l : list string) (a : t) : t := mk (href a) l.
End NavLink.

(** A [section] element that has an [id]. *)
Module PageSection.
Record t : Type := mk { id : string; offsetTop : Z; offsetHeight : Z }.
End PageSection.

(** The state the script works on: its four module-level variables, the
    elements that have an id, the [.nav-link] and [section[id]] elements
    in document order, and the window's vertical scroll offset. *)
Record Page : Type := mkPage {
  educationModules : list EducationModule.t;
  thesisData : Thesis.t;
  courseworks : list Coursework.t;
  practicalWorks : list PracticalWork.t;
  document : gmap string Element.t;
  navLinks : list NavLink.t;
  sections : list PageSection.t;
  scrollY : Z
}.

Definition set_educationModules (v : list EducationModule.t) (p : Page) : Page :=
  mkPage v (thesisData p) (courseworks p) (practicalWorks p)
         (document p) (navLinks p) (sections p) (scrollY p).
Definition set_thesisData (v : Thesis.t) (p : Page) : Page :=
  mkPage (educationModules p) v (courseworks p) (practicalWorks p)
         (document p) (navLinks p) (sections p) (scrollY p).
Definition set_courseworks (v : list Coursework.t) (p : Page) : Page :=
  mkPage (educationModules p) (thesisData p) v (practicalWorks p)
         (document p) (navLinks p) (sections p) (scrollY p).
Definition set_practicalWorks (v : list PracticalWork.t) (p : Page) : Page :=
  mkPage (educationModules p) (thesisData p) (courseworks p) v
         (document p) (navLinks p) (sections p) (scrollY p).
Definition set_document (v : gmap string Element.t) (p : Page) : Page :=
  mkPage (educationModules p) (thesisData p) (courseworks p) (practicalWorks p)
         v (navLinks p) (sections p) (scrollY p).
Definition set_navLinks (v : list NavLink.t) (p : Page) : Page :=
  mkPage (educationModules p) (thesisData p) (courseworks p) (practicalWorks p)
         (document p) v (sections p) (scrollY p).
Definition set_scrollY (v : Z) (p : Page) : Page :=
  mkPage (educationModules p) (thesisData p) (courseworks p) (practicalWorks p)
         (document p) (navLinks p) (sections p) v.

(** [document.getElementById(id)]: [None] is [null]. *)
Definition getElementById (id : string) (p : Page) : option Element.t := document p !! id.

(** [container.innerHTML = html] for the element with this id: the
    markup is kept as the container's [innerHTML]. The map of elements
    is not rebuilt from the markup: the elements that the assignment
    creates (for a module card, its content and its icon) and the
    former content of the container that it removes are not tracked
    here. What a container holds is read from its [innerHTML]; a page
    on which cards have been rendered is a page whose map holds their
    elements. *)
Definition assign_innerHTML (id : string) (html : string) (p : Page) : Page :=
  set_document (alter (Element.set_innerHTML html) id (document p)) p.

(** ** Exceptions and state *)

Inductive Error : Type :=
| TypeError      (* a property of [null] or [undefined] is read *)
| SyntaxError    (* [response.json()] on a body that is not JSON *)
| NetworkError.  (* [fetch] rejects: the transport failed *)

Inductive Completion (A : Type) : Type :=
| Normal (a : A)
| Throw (e : Error).
Arguments Normal {A} a.
Arguments Throw {A} e.

(** A computation of the script over a state [S]: it completes normally
    or throws, and the state written before a throw stays written. *)
Definition JS (S A : Type) : Type := S → Completion A * S.

#[global] Instance JS_ret {S} : MRet (JS S) := λ A a s, (Normal a, s).
#[global] Instance JS_bind {S} : MBind (JS S) := λ A B f m s,
  match m s with
  | (Normal a, s') => f a s'
  | (Throw e, s') => (Throw e, s')
  end.

Definition throw {S A} (e : Error) : JS S A := λ s, (Throw e, s).
Definition modify {S} (f : S → S) : JS S unit := λ s, (Normal tt, f s).
Definition get {S} : JS S S := λ s, (Normal s, s).

(** [try { body } catch (error) { handler(error) }] *)
Definition try_catch {S A} (body : JS S A) (handler : Error → JS S A) : JS S A := λ s,
  match body s with
  | (Normal a, s') => (Normal a, s')
  | (Throw e, s') => handler e s'
  end.

(** [!x] for a reference that may be [null]. *)
Definition is_null {A} (x : option A) : bool :=
  match x with Some _ => false | None => true end.

(** ** Render functions *)

Definition labItem (lab : Lab.t) : string :=
tpl "
                                <div class='lab-item'>
                                    <a href='" +:+ Lab.link lab +:+ tpl "' target='_blank'>
                                        <i class='fas fa-flask'></i>
                                        " +:+ Lab.title lab +:+ tpl "
                                    </a>
                                    <i class='fas fa-external-link-alt'></i>
                                </div>
                            ".

Definition semesterSection (semester : Semester.t) : string :=
tpl "
                    <div class='semester-section'>
                        <div class='semester-title'>
                            <i class='fas fa-calendar-alt'></i>
                            " +:+ Semester.title semester +:+ tpl "
                        </div>
                        <div class='labs-list'>
                            " +:+ join (map labItem (Semester.labs semester)) +:+ tpl "
                        </div>
                    </div>
                ".

Definition moduleCard (index : nat) (module : EducationModule.t) : string :=
tpl "
        <div class='module-card' data-aos='fade-up' data-aos-delay='" +:+ showNat (index * 100) +:+ tpl "'>
            <div class='module-header' onclick='toggleModule(" +:+ showNat index +:+ tpl ")'>
                <div class='module-title'>
                    <span>📚 " +:+ EducationModule.title module +:+ tpl "</span>
                    <span class='module-toggle'>
                        <i class='fas fa-chevron-down' id='module-icon-" +:+ showNat index +:+ tpl "'></i>
                    </span>
                </div>
            </div>
            <div class='module-content' id='module-content-" +:+ showNat index +:+ tpl "' style='display: none;'>
                " +:+ join (map semesterSection (EducationModule.semesters module)) +:+ tpl "
            </div>
        </div>
    ".

Definition renderEducationModules (p : Page) : Page :=
  let container := getElementById "educationModules" p in
  if is_null container || (length (educationModules p) =? 0)%nat then p
  else assign_innerHTML "educationModules" (join (imap moduleCard (educationModules p))) p.

Definition featureItem (feature : string) : string :=
tpl "
                            <li>
                                <i class='fas fa-check-circle'></i>
                                " +:+ feature +:+ tpl "
                            </li>
                        ".

(** The thesis template up to the list items, and after them. *)
Definition thesisCard_head (thesisData : Thesis.t) : string :=
tpl "
        <div class='thesis-card' data-aos='fade-up'>
            <div class='thesis-info'>
                <h3>" +:+ ToString (Thesis.title thesisData) +:+ tpl "</h3>
                <p class='thesis-topic'>
                    <i class='fas fa-graduation-cap'></i>
                    " +:+ ToString (Thesis.topic thesisData) +:+ tpl "
                </p>
                <p class='thesis-description'>" +:+ ToString (Thesis.description thesisData) +:+ tpl "</p>
                <div class='thesis-features'>
                    <h4>Основные разделы:</h4>
                    <ul>
                        ".

Definition thesisCard_tail (thesisData : Thesis.t) : string :=
tpl "
                    </ul>
                </div>
                <a href='" +:+ ToString (Thesis.link thesisData) +:+ tpl "' class='thesis-link' target='_blank'>
                    <i class='fas fa-file-alt'></i>
                    Открыть работу
                </a>
            </div>
        </div>
    ".

Definition thesisCard (thesisData : Thesis.t) (keyFeatures : list string) : string :=
  thesisCard_head thesisData +:+ join (map featureItem keyFeatures) +:+ thesisCard_tail thesisData.

(** [thesisData.keyFeatures.map] throws a [TypeError] when the object has
    no [keyFeatures]; the template is evaluated in full before the
    assignment, so nothing is written then. *)
Definition renderThesis : JS Page unit := λ p,
  let container := getElementById "thesisContent" p in
  if is_null container || negb (ToBoolean (Thesis.title (thesisData p))) then (Normal tt, p)
  else
    match Thesis.keyFeatures (thesisData p) with
    | None => (Throw TypeError, p)
    | Some keyFeatures =>
        (Normal tt, assign_innerHTML "thesisContent" (thesisCard (thesisData p) keyFeatures) p)
    end.

Definition techTag (tech : string) : string :=
tpl "
                        <span class='tech-tag'>" +:+ tech +:+ tpl "</span>
                    ".

Definition courseworkCard (index : nat) (work : Coursework.t) : string :=
tpl "
        <div class='work-card' data-aos='fade-up' data-aos-delay='" +:+ showNat (index * 100) +:+ tpl "'>
            <div class='work-header'>
                <h3 class='work-title'>" +:+ Coursework.title work +:+ tpl "</h3>
                <span class='work-semester'>
                    <i class='fas fa-calendar'></i>
                    " +:+ Coursework.semester work +:+ tpl "
                </span>
            </div>
            <p class='work-description'>" +:+ Coursework.description work +:+ tpl "</p>
            <div class='work-technologies'>
                <strong>Технологии:</strong>
                <div class='tech-tags'>
                    " +:+ join (map techTag (Coursework.technologies work)) +:+ tpl "
                </div>
            </div>
            <a href='" +:+ Coursework.link work +:+ tpl "' class='work-link' target='_blank'>
                Подробнее
                <i class='fas fa-arrow-right'></i>
            </a>
        </div>
    ".

Definition renderCourseworks (p : Page) : Page :=
  let container := getElementById "courseworksList" p in
  if is_null container || (length (courseworks p) =? 0)%nat then p
  else assign_innerHTML "courseworksList" (join (imap courseworkCard (courseworks p))) p.

Definition itemEntry (item : string) : string :=
tpl "
                        <div class='item-entry'>
                            <i class='fas fa-code'></i>
                            " +:+ item +:+ tpl "
                        </div>
                    ".

Definition practicalCard (index : nat) (work : PracticalWork.t) : string :=
tpl "
        <div class='work-card' data-aos='fade-up' data-aos-delay='" +:+ showNat (index * 100) +:+ tpl "'>
            <div class='work-header'>
                <h3 class='work-title'>" +:+ PracticalWork.title work +:+ tpl "</h3>
                <span class='work-semester'>
                    <i class='fas fa-calendar'></i>
                    " +:+ PracticalWork.semester work +:+ tpl "
                </span>
            </div>
            <p class='work-description'>" +:+ PracticalWork.description work +:+ tpl "</p>
            <div class='work-items'>
                <strong>Работы:</strong>
                <div class='items-list'>
                    " +:+ join (map itemEntry (PracticalWork.items work)) +:+ tpl "
                </div>
            </div>
            <a href='" +:+ PracticalWork.link work +:+ tpl "' class='work-link' target='_blank'>
                Открыть все работы
                <i class='fas fa-arrow-right'></i>
            </a>
        </div>
    ".

Definition renderPracticalWorks (p : Page) : Page :=
  let container := getElementById "practicalsList" p in
  if is_null container || (length (practicalWorks p) =? 0)%nat then p
  else assign_innerHTML "practicalsList" (join (imap practicalCard (practicalWorks p))) p.

(** ** Loading the four documents *)

Inductive Source : Type :=
| SrcEducationModules
| SrcThesis
| SrcCourseworks
| SrcPracticalWorks.

#[global] Instance Source_eq_dec : EqDecision Source.
Proof. solve_decision. Defined.

Definition url (s : Source) : string :=
  match s with
  | SrcEducationModules => "public/data/education_modules.json"
  | SrcThesis => "public/data/thesis.json"
  | SrcCourseworks => "public/data/courseworks.json"
  | SrcPracticalWorks => "public/data/practical_works.json"
  end.

(** What the script uses of a [Response]: its [ok] flag and what
    [json()] settles to, [None] when the body is not JSON and the
    promise rejects. *)
Record Response (T : Type) : Type := mkResponse { ok : bool; json_body : option T }.
Arguments mkResponse {T} ok json_body.
Arguments ok {T} r.
Arguments json_body {T} r.

(** What [fetch] settles to: it rejects when the transport fails, and
    resolves with a response otherwise, whatever the status. *)
Inductive FetchResult (T : Type) : Type :=
| Rejected
| Resolved (r : Response T).
Arguments Rejected {T}.
Arguments Resolved {T} r.

(** The server side, one answer per source. *)
Record Network : Type := mkNetwork {
  education_modules_json : FetchResult (list EducationModule.t);
  thesis_json : FetchResult Thesis.t;
  courseworks_json : FetchResult (list Coursework.t);
  practical_works_json : FetchResult (list PracticalWork.t)
}.

(** The calls that leave the loader, in the order they happen. *)
Inductive Event : Type :=
| EvFetch (s : Source)
| EvRender (s : Source)
| EvConsoleError (e : Error).

#[global] Instance Error_eq_dec : EqDecision Error.
Proof. solve_decision. Defined.
#[global] Instance Event_eq_dec : EqDecision Event.
Proof. solve_decision. Defined.

Record Runtime : Type := mkRuntime { page : Page; events : list Event }.

Definition emit (e : Event) : JS Runtime unit :=
  modify (λ rt, mkRuntime (page rt) (events rt ++ [e])).

(** [await fetch(url s)] *)
Definition fetch {T} (s : Source) (answer : FetchResult T) : JS Runtime (Response T) :=
  emit (EvFetch s);;
  match answer with
  | Rejected => throw NetworkError
  | Resolved r => mret r
  end.

(** [await response.json()] *)
Definition json {T} (r : Response T) : JS Runtime T :=
  match json_body r with
  | None => throw SyntaxError
  | Some data => mret data
  end.

(** An assignment to a module-level variable. *)
Definition store (f : Page → Page) : JS Runtime unit :=
  modify (λ rt, mkRuntime (f (page rt)) (events rt)).

(** A computation over the page, run inside the loader. *)
Definition on_page {A} (f : JS Page A) : JS Runtime A :=
  λ rt, let '(c, p') := f (page rt) in (c, mkRuntime p' (events rt)).

(** A call of the render function of source [s]. *)
Definition render (s : Source) (f : JS Page unit) : JS Runtime unit :=
  emit (EvRender s);; on_page f.

Definition pure_render (f : Page → Page) : JS Page unit := modify f.

Definition console_error (e : Error) : JS Runtime unit := emit (EvConsoleError e).

Definition loadAllData (net : Network) : JS Runtime unit :=
  try_catch
    (modulesResponse ← fetch SrcEducationModules (education_modules_json net);
     (if ok modulesResponse then
        data ← json modulesResponse;
        store (set_educationModules data);;
        render SrcEducationModules (pure_render renderEducationModules)
      else mret tt);;
     thesisResponse ← fetch SrcThesis (thesis_json net);
     (if ok thesisResponse then
        data ← json thesisResponse;
        store (set_thesisData data);;
        render SrcThesis renderThesis
      else mret tt);;
     courseworksResponse ← fetch SrcCourseworks (courseworks_json net);
     (if ok courseworksResponse then
        data ← json courseworksResponse;
        store (set_courseworks data);;
        render SrcCourseworks (pure_render renderCourseworks)
      else mret tt);;
     practicalResponse ← fetch SrcPracticalWorks (practical_works_json net);
     (if ok practicalResponse then
        data ← json practicalResponse;
        store (set_practicalWorks data);;
        render SrcPracticalWorks (pure_render renderPracticalWorks)
      else mret tt))
    (λ error, console_error error).

(** The page before the script has loaded anything: the four variables
    hold their initial values. *)
Definition initial_page (doc : gmap string Element.t) (links : list NavLink.t)
    (secs : list PageSection.t) (y : Z) : Page :=
  mkPage [] Thesis.empty [] [] doc links secs y.

(** ** Toggle of a module card *)

Definition toggleModule (index : nat) (p : Page) : Page :=
  let contentId := "module-content-" +:+ showNat index in
  let iconId := "module-icon-" +:+ showNat index in
  match getElementById contentId p, getElementById iconId p with
  | Some content, Some icon =>
      if String.eqb (Element.display content) "none" then
        set_document
          (alter (Element.set_transform "rotate(180deg)") iconId
             (alter (Element.set_display "block") contentId (document p))) p
      else
        set_document
          (alter (Element.set_transform "rotate(0deg)") iconId
             (alter (Element.set_display "none") contentId (document p))) p
  | _, _ => p
  end.

(** ** Navigation *)




(** [document.querySelector('.nav-link[href=h]')] for [h] the character
    [#] and a section id that is selector text: the position of the
    first element of class [nav-link] whose [href] attribute is [h],
    [None] for [null]. For other ids the selector that the script
    builds may be invalid, and [querySelector] then throws, or may
    compare with another value; what is proved about the link that is
    found is proved for pages with [selectable_sections]. *)
Definition querySelector_navLink (h : string) (p : Page) : option nat :=
  fst <$> list_find (λ a, NavLink.href a = h) (navLinks p).

Definition navLink_update (f : list string → list string) (a : NavLink.t) : NavLink.t :=
  NavLink.set_classList (f (NavLink.classList a)) a.

(** The body of [sections.forEach] in [updateActiveNavLink], for the
    offset [scrollY] read before the loop. *)
Definition updateActiveNavLink_section (scrollY : Z) (p : Page) (section : PageSection.t) : Page :=
  let sectionHeight := PageSection.offsetHeight section in
  let sectionTop := (PageSection.offsetTop section - 100)%Z in
  let sectionId := PageSection.id section in
  let navLink := querySelector_navLink ("#" +:+ sectionId) p in
  if (sectionTop <? scrollY)%Z && (scrollY <=? sectionTop + sectionHeight)%Z then
    let p := set_navLinks (map (navLink_update (classList_remove "active")) (navLinks p)) p in
    match navLink with
    | Some i => set_navLinks (alter (navLink_update (classList_add "active")) i (navLinks p)) p
    | None => p
    end
  else p.

(** [window.pageYOffset] is the window's [scrollY]. *)
Definition updateActiveNavLink (p : Page) : Page :=
  let scrollY := scrollY p in
  foldl (updateActiveNavLink_section scrollY) p (sections p).

(** ** Event listeners *)

(** A reference held by a listener's closure: the id of the element that
    [getElementById] found when the listener was made, [None] for
    [null]. *)
Definition getRef (id : string) (p : Page) : option string :=
  match getElementById id p with
  | Some _ => Some id
  | None => None
  end.

(** [ref.classList.f(...)]: a [TypeError] when [ref] is [null]. *)
Definition classList_call (ref : option string) (f : list string → list string) : JS Page unit :=
  match ref with
  | None => throw TypeError
  | Some id =>
      modify (λ p,
        set_document
          (alter (λ e, Element.set_classList (f (Element.classList e)) e) id (document p)) p)
  end.

(** The listeners the script adds, each with the references its closure
    captured. *)
Inductive Handler : Type :=
| MenuToggleClick (navToggle navMenu : option string)
| NavLinkClick (navToggle navMenu : option string)
| NavScroll (navbar : option string)
| BackToTopScroll (backToTopBtn : option string)
| BackToTopClick.

Definition run_handler (h : Handler) : JS Page unit :=
  match h with
  | MenuToggleClick navToggle navMenu =>
      classList_call navToggle (classList_toggle "active");;
      classList_call navMenu (classList_toggle "active")
  | NavLinkClick navToggle navMenu =>
      classList_call navToggle (classList_remove "active");;
      classList_call navMenu (classList_remove "active")
  | NavScroll navbar =>
      p ← get;
      (if (100 <? scrollY p)%Z
       then classList_call navbar (classList_add "scrolled")
       else classList_call navbar (classList_remove "scrolled"));;
      modify updateActiveNavLink
  | BackToTopScroll backToTopBtn =>
      p ← get;
      if (500 <? scrollY p)%Z
      then classList_call backToTopBtn (classList_add "visible")
      else classList_call backToTopBtn (classList_remove "visible")
  | BackToTopClick =>
      (* [window.scrollTo({ top: 0, behavior: 'smooth' })]: where the
         scroll ends *)
      modify (set_scrollY 0)
  end.

Inductive Target : Type :=
| OnNavToggle
| OnNavLink (i : nat)
| OnWindow
| OnBackToTop.

Inductive EventType : Type := Click | Scroll.

#[global] Instance Target_eq_dec : EqDecision Target.
Proof. solve_decision. Defined.
#[global] Instance EventType_eq_dec : EqDecision EventType.
Proof. solve_decision. Defined.

(** One [addEventListener] call. *)
Record Listener : Type := mkListener {
  l_target : Target;
  l_type : EventType;
  l_handler : Handler
}.

Definition initNavigation (p : Page) : list Listener :=
  let navbar := getRef "navbar" p in
  let navToggle := getRef "navToggle" p in
  let navMenu := getRef "navMenu" p in
  let navLinks := navLinks p in
  (if negb (is_null navToggle) && negb (is_null navMenu)
   then [mkListener OnNavToggle Click (MenuToggleClick navToggle navMenu)]
   else [])
  ++ imap (λ i _, mkListener (OnNavLink i) Click (NavLinkClick navToggle navMenu)) navLinks
  ++ [mkListener OnWindow Scroll (NavScroll navbar)].

Definition initBackToTop (p : Page) : list Listener :=
  let backToTopBtn := getRef "backToTop" p in
  if negb (is_null backToTopBtn)
  then [mkListener OnWindow Scroll (BackToTopScroll backToTopBtn);
        mkListener OnBackToTop Click BackToTopClick]
  else [].

(** One listener run by the browser: when it throws, the error is
    reported and the page it leaves is kept. *)
Definition run_listener (acc : list Error * Page) (l : Listener) : list Error * Page :=
  match run_handler (l_handler l) acc.2 with
  | (Normal _, p') => (acc.1, p')
  | (Throw e, p') => (acc.1 ++ [e], p')
  end.

(** The browser runs the listeners of a target for an event in the order
    they were added. A listener that throws does not stop the next one.
    The result is the errors reported and the page. *)
Definition dispatch (listeners : list Listener) (t : Target) (ty : EventType)
    (p : Page) : list Error * Page :=
  foldl (λ acc l,
    if bool_decide (l_target l = t) && bool_decide (l_type l = ty)
    then run_listener acc l else acc) ([], p) listeners.

(** The window is scrolled to offset [y] and the scroll event is
    dispatched. *)
Definition scroll_event (listeners : list Listener) (y : Z) (p : Page) : list Error * Page :=
  dispatch listeners OnWindow Scroll (set_scrollY y p).

(** ** Counters *)

(** An element of class [stat-number]: the integer its text shows, which
    the script reads with [+counter.innerText], and the integer of its
    [data-count] attribute. *)
Module Counter.
Record t : Type := mk { innerText : Z; data_count : Z }.
Definition set_innerText (v : Z) (c : t) : t := mk v (data_count c).
End Counter.

(** An [IntersectionObserverEntry], its target a position in the list of
    counters. *)
Module Entry.
Record t : Type := mk { target : nat; isIntersecting : bool }.
End Entry.

(** The counters, the targets the observer still observes, the pending
    [setTimeout(updateCount, 1)] callbacks (each for one counter, oldest
    first), and the calls of [animateCounter] so far. *)
Record Counters : Type := mkCounters {
  counters : list Counter.t;
  observed : list nat;
  timers : list nat;
  animated : list nat
}.

Definition speed : Z := 200.

(** [updateCount] in the closure of counter [i]. The quotient
    [target / speed] and the sum [count + increment] are taken as exact
    rationals. The script computes them in doubles. For an integer
    target and an integer count of magnitude at most 2^40
    ([exact_range] below) the ceiling is the same: the exact sum is an
    integer, and then the doubles are exact, or it is at least 1/200
    away from every integer, while the two roundings move the sum by
    less than 2^-11. For larger magnitudes the script can step
    differently or not at all; what is proved here about the numbers a
    counter shows is proved within that range, or does not depend on
    it. *)
Definition updateCount (i : nat) (st : Counters) : Counters :=
  match counters st !! i with
  | None => st
  | Some counter =>
      let target := Counter.data_count counter in
      let increment := (inject_Z target / inject_Z speed)%Q in
      let count := Counter.innerText counter in
      if (count <? target)%Z then
        mkCounters
          (alter (Counter.set_innerText (Qceiling (inject_Z count + increment))) i (counters st))
          (observed st) (timers st ++ [i]) (animated st)
      else
        mkCounters
          (alter (Counter.set_innerText target) i (counters st))
          (observed st) (timers st) (animated st)
  end.

Definition animateCounter (i : nat) (st : Counters) : Counters :=
  updateCount i (mkCounters (counters st) (observed st) (timers st) (animated st ++ [i])).

Definition unobserve (i : nat) (st : Counters) : Counters :=
  mkCounters (counters st) (filter (λ j, j ≠ i) (observed st)) (timers st) (animated st).

(** The observer's callback. *)
Definition observer_callback (entries : list Entry.t) (st : Counters) : Counters :=
  foldl (λ st entry,
    if Entry.isIntersecting entry
    then unobserve (Entry.target entry) (animateCounter (Entry.target entry) st)
    else st) st entries.

(** [initCounters]: every counter is observed, nothing else has
    happened. *)
Definition initCounters (cs : list Counter.t) : Counters :=
  mkCounters cs (seq 0 (length cs)) [] [].

(** What the browser does to the counters after [initCounters]. *)
Inductive BrowserStep : Type :=
| Notify (entries : list Entry.t)  (* intersection changes are reported *)
| Timeout.                         (* the oldest pending timer fires *)

(** The observer is only told about targets it observes at that time. *)
Definition browser_step (st : Counters) (ev : BrowserStep) : Counters :=
  match ev with
  | Notify entries =>
      observer_callback
        (filter (λ e, Entry.target e ∈ observed st) entries) st
  | Timeout =>
      match timers st with
      | [] => st
      | i :: rest =>
          updateCount i (mkCounters (counters st) (observed st) rest (animated st))
      end
  end.

Definition browser_run (st : Counters) (evs : list BrowserStep) : Counters :=
  foldl browser_step st evs.

(** ** Reading markup back: the elements at the top level

    What the container's children are after [innerHTML] is assigned is
    decided by the HTML parser. The scanner below follows the parser's
    tokenizer through the states the templates reach: text between
    tags, the character after a [<], the inside of a tag, and an
    attribute value between double or single quotes. A [<] followed by
    a letter opens an element, a [<] followed by [/] closes one, any
    other [<] is text; inside a quoted attribute value nothing but the
    closing quote ends the value. The scanner keeps the nesting depth,
    and an element opened at depth 0 is a child of the container.

    This is the parser's result for markup in which every element is
    closed by its own end tag, in a container whose content is parsed
    as flow content (a [div] or a [section]). The templates' own tags
    are of this kind (no void element, no comment, no element that the
    parser closes or moves by itself), so it is the parser's result for
    the markup of a well-formed document ([plain_text] and
    [attribute_text] below), whose fields bring no tag and end no
    attribute value. *)

Inductive ScanMode : Type :=
| InText            (* between tags *)
| AfterLt           (* the previous character was a [<] in text *)
| InTag             (* inside a tag, outside an attribute value *)
| InDoubleQuotes    (* inside an attribute value between double quotes *)
| InSingleQuotes.   (* inside an attribute value between single quotes *)

Record Scan : Type := mkScan {
  depth : nat;        (* elements open at this point *)
  children : nat;     (* elements opened at depth 0 so far *)
  mode : ScanMode
}.

(** An ASCII letter, which is what a tag name starts with. *)
Definition is_letter (c : ascii) : bool :=
  let n := nat_of_ascii c in
  ((65 <=? n)%nat && (n <=? 90)%nat) || ((97 <=? n)%nat && (n <=? 122)%nat).

Definition scan_step (st : Scan) (c : ascii) : Scan :=
  match mode st with
  | InText =>
      if Ascii.eqb c "<" then mkScan (depth st) (children st) AfterLt else st
  | AfterLt =>
      if Ascii.eqb c "/" then mkScan (pred (depth st)) (children st) InTag
      else if is_letter c then
        mkScan (S (depth st))
               (match depth st with O => S (children st) | S _ => children st end)
               InTag
      else mkScan (depth st) (children st) (if Ascii.eqb c "<" then AfterLt else InText)
  | InTag =>
      if Ascii.eqb c ">" then mkScan (depth st) (children st) InText
      else if Ascii.eqb c dquote then mkScan (depth st) (children st) InDoubleQuotes
      else if Ascii.eqb c "'" then mkScan (depth st) (children st) InSingleQuotes
      else st
  | InDoubleQuotes =>
      if Ascii.eqb c dquote then mkScan (depth st) (children st) InTag else st
  | InSingleQuotes =>
      if Ascii.eqb c "'" then mkScan (depth st) (children st) InTag else st
  end.

Fixpoint scan (html : string) (st : Scan) : Scan :=
  match html with
  | EmptyString => st
  | String c rest => scan rest (scan_step st c)
  end.

(** The number of element children a container gets from this markup. *)
Definition topLevelElements (html : string) : nat :=
  children (scan html (mkScan 0 0 InText)).

(** A piece of markup that is one whole element at the level where it
    stands, with nothing left open: wherever it is put between top-level
    elements, it adds exactly one. *)
Definition single_element (html : string) : Prop :=
  ∀ n, scan html (mkScan 0 n InText) = mkScan 0 (S n) InText.

(** Text that brings no tag of its own when it stands between tags: it
    has no [<]. *)
Fixpoint plain_text (s : string) : bool :=
  match s with
  | EmptyString => true
  | String c rest => negb (Ascii.eqb c "<") && plain_text rest
  end.

(** Text that stays inside the attribute value it is put in, between the
    double quotes the templates write: it has no double quote. *)
Fixpoint attribute_text (s : string) : bool :=
  match s with
  | EmptyString => true
  | String c rest => negb (Ascii.eqb c dquote) && attribute_text rest
  end.

(** Well-formed documents: every field that is put between tags is plain
    text, and every field that is put in an attribute value (the links)
    is attribute text. *)
Definition Lab_wf (lab : Lab.t) : bool :=
  plain_text (Lab.title lab) && attribute_text (Lab.link lab).
Definition Semester_wf (semester : Semester.t) : bool :=
  plain_text (Semester.title semester) && forallb Lab_wf (Semester.labs semester).
Definition EducationModule_wf (module : EducationModule.t) : bool :=
  plain_text (EducationModule.title module)
  && forallb Semester_wf (EducationModule.semesters module).
Definition Coursework_wf (work : Coursework.t) : bool :=
  plain_text (Coursework.title work) && plain_text (Coursework.semester work)
  && plain_text (Coursework.description work)
  && forallb plain_text (Coursework.technologies work)
  && attribute_text (Coursework.link work).
Definition PracticalWork_wf (work : PracticalWork.t) : bool :=
  plain_text (PracticalWork.title work) && plain_text (PracticalWork.semester work)
  && plain_text (PracticalWork.description work)
  && forallb plain_text (PracticalWork.items work)
  && attribute_text (PracticalWork.link work).

(** The numbers among the fields of a thesis are safe integers. *)
Definition Thesis_safe (thesis : Thesis.t) : bool :=
  safe_value (Thesis.title thesis)
  && safe_value (Thesis.topic thesis)
  && safe_value (Thesis.description thesis)
  && safe_value (Thesis.link thesis).

(** A well-formed thesis has a truthy title, safe integers for its
    numbers, plain text in every field that is put between tags,
    attribute text for its link, and its list of key features. *)
Definition Thesis_wf (thesis : Thesis.t) : bool :=
  ToBoolean (Thesis.title thesis)
  && Thesis_safe thesis
  && plain_text (ToString (Thesis.title thesis))
  && plain_text (ToString (Thesis.topic thesis))
  && plain_text (ToString (Thesis.description thesis))
  && match Thesis.keyFeatures thesis with
     | Some keyFeatures => forallb plain_text keyFeatures
     | None => false
     end
  && attribute_text (ToString (Thesis.link thesis)).

(** ** The four categories, side by side *)

Definition container_id (s : Source) : string :=
  match s with
  | SrcEducationModules => "educationModules"
  | SrcThesis => "thesisContent"
  | SrcCourseworks => "courseworksList"
  | SrcPracticalWorks => "practicalsList"
  end.

(** The render function of a category. *)
Definition render_function (s : Source) : JS Page unit :=
  match s with
  | SrcEducationModules => pure_render renderEducationModules
  | SrcThesis => renderThesis
  | SrcCourseworks => pure_render renderCourseworks
  | SrcPracticalWorks => pure_render renderPracticalWorks
  end.

(** The category's variable holds its initial value. *)
Definition slot_empty (s : Source) (p : Page) : Prop :=
  match s with
  | SrcEducationModules => educationModules p = []
  | SrcThesis => thesisData p = Thesis.empty
  | SrcCourseworks => courseworks p = []
  | SrcPracticalWorks => practicalWorks p = []
  end.

(** The category's variable is the same in both pages. *)
Definition slot_same (s : Source) (p p' : Page) : Prop :=
  match s with
  | SrcEducationModules => educationModules p' = educationModules p
  | SrcThesis => thesisData p' = thesisData p
  | SrcCourseworks => courseworks p' = courseworks p
  | SrcPracticalWorks => practicalWorks p' = practicalWorks p
  end.

(** The category's variable holds a well-formed document that is not
    empty (for the thesis: one with a truthy title and its list). *)
Definition slot_well_formed (s : Source) (p : Page) : bool :=
  match s with
  | SrcEducationModules =>
      negb (length (educationModules p) =? 0)%nat && forallb EducationModule_wf (educationModules p)
  | SrcThesis => Thesis_wf (thesisData p)
  | SrcCourseworks =>
      negb (length (courseworks p) =? 0)%nat && forallb Coursework_wf (courseworks p)
  | SrcPracticalWorks =>
      negb (length (practicalWorks p) =? 0)%nat && forallb PracticalWork_wf (practicalWorks p)
  end.

(** The length of the array the category's claim is about. *)
Definition source_array_length (s : Source) (p : Page) : nat :=
  match s with
  | SrcEducationModules => length (educationModules p)
  | SrcThesis => length (default [] (Thesis.keyFeatures (thesisData p)))
  | SrcCourseworks => length (courseworks p)
  | SrcPracticalWorks => length (practicalWorks p)
  end.

(** The markup of a container is a row of cards, one per array entry and
    in the array's order, each one whole element. *)
Definition row_of_cards {A} (card : nat → A → string) (entries : list A) (html : string) : Prop :=
  html = join (imap card entries)
  ∧ length (imap card entries) = length entries
  ∧ (∀ i x, entries !! i = Some x →
       imap card entries !! i = Some (card i x) ∧ single_element (card i x))
  ∧ topLevelElements html = length entries.

(** What the container of a category holds after its render function
    ran on [p] and gave [p']. *)
Definition rendered (s : Source) (p p' : Page) : Prop :=
  ∃ container, getElementById (container_id s) p' = Some container ∧
  match s with
  | SrcEducationModules =>
      row_of_cards moduleCard (educationModules p) (Element.innerHTML container)
  | SrcCourseworks =>
      row_of_cards courseworkCard (courseworks p) (Element.innerHTML container)
  | SrcPracticalWorks =>
      row_of_cards practicalCard (practicalWorks p) (Element.innerHTML container)
  | SrcThesis =>
      let keyFeatures := default [] (Thesis.keyFeatures (thesisData p)) in
      (* one card is the container's only child *)
      Element.innerHTML container = thesisCard (thesisData p) keyFeatures
      ∧ single_element (Element.innerHTML container)
      ∧ topLevelElements (Element.innerHTML container) = 1
      (* the card's head stops inside the list, four elements deep, and
         the list holds one item per key feature, in order *)
      ∧ scan (thesisCard_head (thesisData p)) (mkScan 0 0 InText) = mkScan 4 1 InText
      ∧ (∀ i feature, keyFeatures !! i = Some feature →
           map featureItem keyFeatures !! i = Some (featureItem feature)
           ∧ single_element (featureItem feature))
      ∧ topLevelElements (join (map featureItem keyFeatures)) = length keyFeatures
  end.

(** Claim C1 read to the letter: in every category the assigned markup
    has as many top-level elements as the source array has entries. *)
Definition C1_as_stated (s : Source) (p : Page) : Prop :=
  is_Some (getElementById (container_id s) p) →
  slot_well_formed s p = true →
  ∃ container,
    getElementById (container_id s) (render_function s p).2 = Some container
    ∧ topLevelElements (Element.innerHTML container) = source_array_length s p.

(** ** Example pages *)

Definition blank_element : Element.t := Element.mk EmptyString [] EmptyString EmptyString.

Definition example_modules : list EducationModule.t :=
  [EducationModule.mk "Programming"
     [Semester.mk "Semester 1" [Lab.mk "Lab 1" "labs/1.pdf"];
      Semester.mk "Semester 2" [Lab.mk "Lab 2" "labs/2.pdf"]];
   EducationModule.mk "Databases" []].

Definition example_thesis : Thesis.t :=
  Thesis.mk (JsString "Portfolio site") (JsString "Web development")
            (JsString "A single page") (Some ["Design"; "Code"]) (JsString "thesis.pdf").

Definition example_courseworks : list Coursework.t :=
  [Coursework.mk "Compiler" "Semester 5" "A small compiler" ["C"; "Yacc"] "cw/1.pdf"].

Definition example_practicals : list PracticalWork.t :=
  [PracticalWork.mk "Networks" "Semester 6" "Socket exercises" ["Echo server"] "pw/1.pdf";
   PracticalWork.mk "Graphics" "Semester 7" "Rendering exercises" [] "pw/2.pdf"].

Definition example_document : gmap string Element.t :=
  {[ "educationModules" := blank_element;
     "thesisContent" := blank_element;
     "courseworksList" := blank_element;
     "practicalsList" := blank_element ]}.

(** A page whose four variables hold documents and whose four containers
    exist. *)
Definition example_page : Page :=
  mkPage example_modules example_thesis example_courseworks example_practicals
         example_document [] [] 0.

(** Two courseworks, the first with a link that ends the attribute
    value it is put in (a double quote) and then opens a value of its
    own with a single quote, which nothing closes: the rest of the
    markup is read as that value. *)
Definition unquoting_courseworks : list Coursework.t :=
  [Coursework.mk "Compiler" "Semester 5" "A small compiler" ["C"]
                 ("x" +:+ String dquote " y='");
   Coursework.mk "Parser" "Semester 6" "A small parser" ["C"] "cw/2.pdf"].

(** A thesis with every field but a usable title. *)
Definition untitled_thesis : Thesis.t :=
  Thesis.mk (JsString EmptyString) (JsString "Web development")
            (JsString "A single page") (Some ["Design"; "Code"]) (JsString "thesis.pdf").

Definition untitled_page : Page :=
  mkPage [] untitled_thesis [] [] example_document [] [] 0.

(** ** The loader, source by source *)

(** How the fetch of a source can go. *)
Inductive Status : Type :=
| StRejected     (* the transport failed: [fetch] rejects *)
| StNotOk        (* a response whose status is not a success *)
| StUnparsable   (* a success whose body is not JSON *)
| StParsed.      (* a success whose body parses *)

#[global] Instance Status_eq_dec : EqDecision Status.
Proof. solve_decision. Defined.

Definition status_of {T} (answer : FetchResult T) : Status :=
  match answer with
  | Rejected => StRejected
  | Resolved r =>
      if ok r then
        match json_body r with Some _ => StParsed | None => StUnparsable end
      else StNotOk
  end.

Definition answer_status (s : Source) (net : Network) : Status :=
  match s with
  | SrcEducationModules => status_of (education_modules_json net)
  | SrcThesis => status_of (thesis_json net)
  | SrcCourseworks => status_of (courseworks_json net)
  | SrcPracticalWorks => status_of (practical_works_json net)
  end.

(** The document in a successful answer. *)
Definition parsed {T} (answer : FetchResult T) : option T :=
  match answer with
  | Rejected => None
  | Resolved r => if ok r then json_body r else None
  end.

(** The variable of source [s] holds the document the network answered
    with. *)
Definition stored (s : Source) (net : Network) (p : Page) : Prop :=
  match s with
  | SrcEducationModules => parsed (education_modules_json net) = Some (educationModules p)
  | SrcThesis => parsed (thesis_json net) = Some (thesisData p)
  | SrcCourseworks => parsed (courseworks_json net) = Some (courseworks p)
  | SrcPracticalWorks => parsed (practical_works_json net) = Some (practicalWorks p)
  end.

(** The page with the answered document put in the variable of [s]. *)
Definition put (s : Source) (net : Network) (p : Page) : Page :=
  match s with
  | SrcEducationModules =>
      from_option (λ d, set_educationModules d p) p (parsed (education_modules_json net))
  | SrcThesis => from_option (λ d, set_thesisData d p) p (parsed (thesis_json net))
  | SrcCourseworks => from_option (λ d, set_courseworks d p) p (parsed (courseworks_json net))
  | SrcPracticalWorks =>
      from_option (λ d, set_practicalWorks d p) p (parsed (practical_works_json net))
  end.

(** The fixed order of the four loads. *)
Definition load_order : list Source :=
  [SrcEducationModules; SrcThesis; SrcCourseworks; SrcPracticalWorks].

Definition position (s : Source) : nat :=
  match s with
  | SrcEducationModules => 0
  | SrcThesis => 1
  | SrcCourseworks => 2
  | SrcPracticalWorks => 3
  end.

(** One of the four blocks of [loadAllData]. *)
Definition load_one {T} (s : Source) (answer : FetchResult T) (set : T → Page → Page)
    : JS Runtime unit :=
  response ← fetch s answer;
  if ok response then
    data ← json response;
    store (set data);;
    render s (render_function s)
  else mret tt.

Definition load_source (s : Source) (net : Network) : JS Runtime unit :=
  match s with
  | SrcEducationModules => load_one s (education_modules_json net) set_educationModules
  | SrcThesis => load_one s (thesis_json net) set_thesisData
  | SrcCourseworks => load_one s (courseworks_json net) set_courseworks
  | SrcPracticalWorks => load_one s (practical_works_json net) set_practicalWorks
  end.

(** Blocks run one after the other. *)
Fixpoint load_sources (l : list Source) (net : Network) : JS Runtime unit :=
  match l with
  | [] => mret tt
  | s :: l' => load_source s net;; load_sources l' net
  end.

(** The source an event belongs to. *)
Definition event_source (e : Event) : option Source :=
  match e with
  | EvFetch s | EvRender s => Some s
  | EvConsoleError _ => None
  end.

(** Nothing of source [s] differs between the two pages: its variable
    and its container are the same. *)
Definition untouched (s : Source) (p p' : Page) : Prop :=
  slot_same s p p'
  ∧ getElementById (container_id s) p' = getElementById (container_id s) p.

(** A source whose load goes through: the answer parses, and for the
    thesis the object has its list of key features, so that rendering it
    does not throw. *)
Definition healthy (s : Source) (net : Network) : Prop :=
  answer_status s net = StParsed
  ∧ match s with
    | SrcThesis => ∀ d, parsed (thesis_json net) = Some d → is_Some (Thesis.keyFeatures d)
    | _ => True
    end.

(** The state of the loader when [loadAllData] has run on a page on
    which nothing has happened yet. *)
Definition loaded (net : Network) (p : Page) : Runtime :=
  (loadAllData net (mkRuntime p [])).2.


(** A network on which the transport fails for the education modules and
    the other three documents are served. *)
Definition offline_modules_network : Network :=
  mkNetwork Rejected
            (Resolved (mkResponse true (Some example_thesis)))
            (Resolved (mkResponse true (Some example_courseworks)))
            (Resolved (mkResponse true (Some example_practicals))).

(** A network that answers 404 for the courseworks and serves the other
    three documents. *)
Definition missing_courseworks_network : Network :=
  mkNetwork (Resolved (mkResponse true (Some example_modules)))
            (Resolved (mkResponse true (Some example_thesis)))
            (Resolved (mkResponse false None))
            (Resolved (mkResponse true (Some example_practicals))).

(** A network whose thesis document is not JSON. *)
Definition broken_thesis_network : Network :=
  mkNetwork (Resolved (mkResponse true (Some example_modules)))
            (Resolved (mkResponse true None))
            (Resolved (mkResponse true (Some example_courseworks)))
            (Resolved (mkResponse true (Some example_practicals))).

(** The loader's state once the fetch of [s] has been issued. *)
Definition fetched (s : Source) (rt : Runtime) : Runtime :=
  mkRuntime (page rt) (events rt ++ [EvFetch s]).

(** From [rt] to [rt'] only sources of [l] were dealt with: every new
    event is a fetch or a render of one of them, and nothing of any
    other source has changed. *)
Definition only_about (l : list Source) (rt rt' : Runtime) : Prop :=
  (∃ evs, events rt' = events rt ++ evs
          ∧ ∀ e, e ∈ evs → ∃ s, event_source e = Some s ∧ s ∈ l)
  ∧ ∀ o, o ∉ l → untouched o (page rt) (page rt').

(** From [rt] to [rt'] source [s] was neither stored nor rendered. *)
Definition quiet (s : Source) (rt rt' : Runtime) : Prop :=
  (∃ evs, events rt' = events rt ++ evs ∧ EvRender s ∉ evs)
  ∧ untouched s (page rt) (page rt').

(** ** What a module card shows *)

(** The presentation state of the card with this index: the inline
    [display] of its content and the inline [transform] of its icon,
    when both elements are in the document. *)
Definition presentation (index : nat) (p : Page) : option (string * string) :=
  match getElementById ("module-content-" +:+ showNat index) p,
        getElementById ("module-icon-" +:+ showNat index) p with
  | Some content, Some icon => Some (Element.display content, Element.transform icon)
  | _, _ => None
  end.

(** Claim C5 read to the letter: from any state of a rendered card, two
    toggles give back the [display] and the [transform] it had. *)
Definition C5_as_stated (index : nat) (p : Page) : Prop :=
  is_Some (presentation index p) →
  presentation index (toggleModule index (toggleModule index p)) = presentation index p.

(** The two states a toggle leaves a card in. *)
Definition toggled_state (d t : string) : Prop :=
  (d = "none" ∧ t = "rotate(0deg)") ∨ (d = "block" ∧ t = "rotate(180deg)").

(** The elements of the first module card as [moduleCard 0] writes
    them: the content carries [style='display: none;'], the icon has no
    inline style. *)
Definition fresh_card_document : gmap string Element.t :=
  {[ "module-content-0" := Element.mk EmptyString ["module-content"] "none" EmptyString;
     "module-icon-0" := Element.mk EmptyString ["fas"; "fa-chevron-down"] EmptyString EmptyString ]}.

Definition fresh_card_page : Page :=
  mkPage example_modules Thesis.empty [] [] fresh_card_document [] [] 0.


(** What one toggle makes of the content and icon elements. *)
Definition toggle_elements (ci : Element.t * Element.t) : Element.t * Element.t :=
  if String.eqb (Element.display ci.1) "none"
  then (Element.set_display "block" ci.1, Element.set_transform "rotate(180deg)" ci.2)
  else (Element.set_display "none" ci.1, Element.set_transform "rotate(0deg)" ci.2).


(** ** Active navigation link *)

Definition is_active (a : NavLink.t) : bool :=
  classList_contains "active" (NavLink.classList a).

(** The band the script tests a section with: above
    [offsetTop - 100], and up to and including that plus the height. *)
Definition in_tested_band (y : Z) (section : PageSection.t) : bool :=
  (PageSection.offsetTop section - 100 <? y)%Z
  && (y <=? PageSection.offsetTop section - 100 + PageSection.offsetHeight section)%Z.







(** A page with two stacked sections and their links, the first link
    marked active, scrolled to offset [y]. *)
Definition two_section_page (y : Z) : Page :=
  mkPage [] Thesis.empty [] [] ∅
         [NavLink.mk "#home" ["nav-link"; "active"]; NavLink.mk "#about" ["nav-link"]]
         [PageSection.mk "home" 0 600; PageSection.mk "about" 600 400] y.

(** What the loop of [updateActiveNavLink] does to the list of links for
    one section. *)
Definition mark_section (links : list NavLink.t) (section : PageSection.t) : list NavLink.t :=
  let cleared := navLink_update (classList_remove "active") <$> links in
  match fst <$> list_find (λ a, NavLink.href a = "#" +:+ PageSection.id section) links with
  | Some i => alter (navLink_update (classList_add "active")) i cleared
  | None => cleared
  end.

(** What the loop keeps of the links whatever it has done so far: their
    [href]s, and what they are once ['active'] is removed from all. *)
Definition same_links (l l' : list NavLink.t) : Prop :=
  NavLink.href <$> l = NavLink.href <$> l'
  ∧ navLink_update (classList_remove "active") <$> l
    = navLink_update (classList_remove "active") <$> l'.

(** ** Listeners of the page *)

(** The listeners in the order the script adds them on
    [DOMContentLoaded]. *)
Definition page_listeners (p : Page) : list Listener :=
  initNavigation p ++ initBackToTop p.

(** A listener is one of those the browser runs for this event. *)
Definition listens (t : Target) (ty : EventType) (l : Listener) : Prop :=
  l_target l = t ∧ l_type l = ty.

#[global] Instance listens_dec t ty l : Decision (listens t ty l).
Proof. unfold listens. apply _. Defined.

(** A page with a navigation link and no menu toggle. *)
Definition no_toggle_page : Page :=
  mkPage [] Thesis.empty [] []
         {[ "navbar" := blank_element; "navMenu" := blank_element ]}
         [NavLink.mk "#about" ["nav-link"]]
         [PageSection.mk "about" 100 50] 0.

(** A page with the back-to-top button. *)
Definition button_page : Page :=
  mkPage [] Thesis.empty [] []
         {[ "navbar" := blank_element; "backToTop" := blank_element ]}
         [NavLink.mk "#about" ["nav-link"]]
         [PageSection.mk "about" 100 50] 0.


(** ** The counter that counts to 80 *)


(** A page with one counter, showing 0 with [data-count] 80, after
    [initCounters] and once the counter has come into view. *)
Definition counter_in_view : Counters :=
  browser_step (initCounters [Counter.mk 0 80]) (Notify [Entry.mk 0 true]).

(** The same after [n] more timer callbacks. *)
Definition counter_after (n : nat) : Counters :=
  browser_run counter_in_view (replicate n Timeout).

(** A report of the observer that names no target twice. *)
Definition distinct_targets (ev : BrowserStep) : Prop :=
  match ev with
  | Notify entries => NoDup (Entry.target <$> entries)
  | Timeout => True
  end.






(** ** More on the loader *)

(** The sources whose fetch was issued, in the order of the events. *)
Definition fetched_sources (evs : list Event) : list Source :=
  omap (λ e, match e with EvFetch s => Some s | _ => None end) evs.

(** The markup a render function writes for the document in its
    variable; [None] for a thesis without its list of key features. *)
Definition markup (s : Source) (p : Page) : option string :=
  match s with
  | SrcEducationModules => Some (join (imap moduleCard (educationModules p)))
  | SrcThesis => thesisCard (thesisData p) <$> Thesis.keyFeatures (thesisData p)
  | SrcCourseworks => Some (join (imap courseworkCard (courseworks p)))
  | SrcPracticalWorks => Some (join (imap practicalCard (practicalWorks p)))
  end.

(** The variable of [s] holds something to render: an array that is not
    empty, a thesis with a truthy title. *)
Definition has_data (s : Source) (p : Page) : bool :=
  match s with
  | SrcEducationModules => negb (length (educationModules p) =? 0)%nat
  | SrcThesis => ToBoolean (Thesis.title (thesisData p))
  | SrcCourseworks => negb (length (courseworks p) =? 0)%nat
  | SrcPracticalWorks => negb (length (practicalWorks p) =? 0)%nat
  end.

(** The container of [s] holds the markup of the document in the
    variable of [s]. *)
Definition shows (s : Source) (p : Page) : Prop :=
  ∃ container, getElementById (container_id s) p = Some container
               ∧ markup s p = Some (Element.innerHTML container).



(** A network that serves all four documents. *)
Definition serving_network : Network :=
  mkNetwork (Resolved (mkResponse true (Some example_modules)))
            (Resolved (mkResponse true (Some example_thesis)))
            (Resolved (mkResponse true (Some example_courseworks)))
            (Resolved (mkResponse true (Some example_practicals))).


(** What the [catch] of [loadAllData] makes of the outcome of the four
    blocks. *)
Definition caught (outcome : Completion unit * Runtime) : Runtime :=
  match outcome with
  | (Normal _, rt) => rt
  | (Throw e, rt) => mkRuntime (page rt) (events rt ++ [EvConsoleError e])
  end.


(** What the block of source [s] throws, if anything: the rejection of
    its fetch, the failure to parse its body, or what its render
    function throws on the answered document. The blocks before it
    leave the variable and the container of [s] as they are in [p], and
    the render function looks at nothing else. *)
Definition block_error (s : Source) (net : Network) (p : Page) : option Error :=
  match answer_status s net with
  | StRejected => Some NetworkError
  | StUnparsable => Some SyntaxError
  | StNotOk => None
  | StParsed =>
      match (render_function s (put s net p)).1 with
      | Throw e => Some e
      | Normal _ => None
      end
  end.


(** Two elements that differ at most in their [innerHTML]. *)
Definition same_but_innerHTML (e e' : Element.t) : Prop :=
  Element.classList e' = Element.classList e
  ∧ Element.display e' = Element.display e
  ∧ Element.transform e' = Element.transform e.


(** A page with two rendered module cards, both collapsed. *)
Definition two_cards_page : Page :=
  mkPage example_modules Thesis.empty [] []
         {[ "module-content-0" := Element.mk EmptyString ["module-content"] "none" EmptyString;
            "module-icon-0" := Element.mk EmptyString ["fas"; "fa-chevron-down"] EmptyString EmptyString;
            "module-content-1" := Element.mk EmptyString ["module-content"] "none" EmptyString;
            "module-icon-1" := Element.mk EmptyString ["fas"; "fa-chevron-down"] EmptyString EmptyString ]}
         [] [] 0.




(** A page with the whole navigation, the menu open. *)
Definition open_menu_page : Page :=
  mkPage [] Thesis.empty [] []
         {[ "navbar" := blank_element;
            "navToggle" := Element.mk EmptyString ["nav-toggle"; "active"] EmptyString EmptyString;
            "navMenu" := Element.mk EmptyString ["nav-menu"; "active"] EmptyString EmptyString ]}
         [NavLink.mk "#about" ["nav-link"]]
         [PageSection.mk "about" 100 50] 0.

(** A page with the menu toggle and no menu. *)
Definition no_menu_page : Page :=
  mkPage [] Thesis.empty [] []
         {[ "navbar" := blank_element;
            "navToggle" := Element.mk EmptyString ["nav-toggle"; "active"] EmptyString EmptyString ]}
         [NavLink.mk "#about" ["nav-link"]]
         [PageSection.mk "about" 100 50] 0.

(** A page with links and a section, and no navbar. *)
Definition no_navbar_page : Page :=
  mkPage [] Thesis.empty [] []
         {[ "backToTop" := blank_element ]}
         [NavLink.mk "#about" ["nav-link"]]
         [PageSection.mk "about" 100 50] 0.


(** ** Counters in general *)






(** No counter has been animated twice, and none that has been animated
    is still observed. *)
Definition animated_once (st : Counters) : Prop :=
  NoDup (animated st) ∧ ∀ i, i ∈ animated st → i ∉ observed st.

(** Every pending timer belongs to a counter that has been animated. *)
Definition timers_animated (st : Counters) : Prop :=
  ∀ j, j ∈ timers st → j ∈ animated st.

(** What [counters st'] keeps of [counters st]: every [data-count], and
    the text of the counters not animated in [st']. *)
Definition counters_kept (st st' : Counters) : Prop :=
  (∀ i, Counter.data_count <$> counters st' !! i = Counter.data_count <$> counters st !! i)
  ∧ (∀ i, i ∉ animated st' → counters st' !! i = counters st !! i).


(** ** Scroll animations *)

(** [initScrollAnimations] observes every element that matches
    [.animate-on-scroll] and never stops observing one. The elements
    are given by their class lists, in document order; this is the
    callback of the observer on them. *)
Definition scroll_observer_callback (entries : list Entry.t)
    (elements : list (list string)) : list (list string) :=
  foldl (λ elements entry,
    if Entry.isIntersecting entry
    then alter (classList_add "animate") (Entry.target entry) elements
    else elements) elements entries.

(** The callback on one report of the observer after the other. *)
Definition scroll_observer_run (reports : list (list Entry.t))
    (elements : list (list string)) : list (list string) :=
  foldl (λ elements entries, scroll_observer_callback entries elements) elements reports.

(** Some report has said that element [i] intersects. *)
Definition reported_in_view (i : nat) (reports : list (list Entry.t)) : Prop :=
  ∃ entries entry,
    entries ∈ reports ∧ entry ∈ entries
    ∧ Entry.target entry = i ∧ Entry.isIntersecting entry = true.

(** * Proofs *)

(** ** The scanner *)

Lemma scan_app (s1 s2 : string) (st : Scan) :
  scan (s1 +:+ s2) st = scan s2 (scan s1 st).
Proof.
  revert st. induction s1 as [|c s1 IH]; intros st; simpl; [done|]. apply IH.
Qed.

Lemma scan_plain (s : string) (d n : nat) :
  plain_text s = true → scan s (mkScan d n InText) = mkScan d n InText.
Proof.
  induction s as [|c s IH]; simpl; [done|].
  intros [Hc Hs]%andb_prop. unfold scan_step; simpl.
  apply negb_true_iff in Hc. rewrite Hc. by apply IH.
Qed.

(** Inside a double-quoted attribute value, attribute text leaves the
    scanner where it is. *)
Lemma scan_attribute (s : string) (d n : nat) :
  attribute_text s = true →
  scan s (mkScan d n InDoubleQuotes) = mkScan d n InDoubleQuotes.
Proof.
  induction s as [|c s IH]; simpl; [done|].
  intros [Hc Hs]%andb_prop. unfold scan_step; simpl.
  apply negb_true_iff in Hc. rewrite Hc. by apply IH.
Qed.

Lemma plain_text_uint (d : Decimal.uint) : plain_text (NilEmpty.string_of_uint d) = true.
Proof. induction d; simpl; auto. Qed.

Lemma plain_text_showNat (n : nat) : plain_text (showNat n) = true.
Proof. apply plain_text_uint. Qed.

Lemma plain_text_showZ (z : Z) : plain_text (showZ z) = true.
Proof.
  unfold showZ. destruct (Z.to_int z); simpl; auto using plain_text_uint.
Qed.

Lemma attribute_text_uint (d : Decimal.uint) :
  attribute_text (NilEmpty.string_of_uint d) = true.
Proof. induction d; simpl; auto. Qed.

Lemma attribute_text_showNat (n : nat) : attribute_text (showNat n) = true.
Proof. apply attribute_text_uint. Qed.

Lemma join_cons (s : string) (l : list string) : join (s :: l) = s +:+ join l.
Proof.
  unfold join. destruct l as [|s' l]; simpl; [|done].
  induction s as [|c s IH]; [done|].
  change (String c s = String c (s +:+ EmptyString)). by f_equal.
Qed.

Lemma scan_join (l : list string) (st : Scan) :
  scan (join l) st = foldl (λ st s, scan s st) st l.
Proof.
  revert st. induction l as [|s l IH]; intros st; [done|].
  rewrite join_cons, scan_app. simpl. apply IH.
Qed.

(** Pieces that leave the scanner where it was can be joined freely. *)
Lemma scan_join_neutral {A} (f : A → string) (l : list A) (st : Scan) :
  (∀ x, x ∈ l → scan (f x) st = st) → scan (join (map f l)) st = st.
Proof.
  intros H. rewrite scan_join. induction l as [|x l IH]; simpl; [done|].
  rewrite H by left. apply IH. intros y Hy. apply H. by right.
Qed.

(** A row of whole elements has one child per piece. *)
Lemma scan_join_cards {A} (card : nat → A → string) (l : list A) (n : nat) :
  (∀ i x, l !! i = Some x → single_element (card i x)) →
  scan (join (imap card l)) (mkScan 0 n InText) = mkScan 0 (n + length l) InText.
Proof.
  rewrite scan_join. revert card n.
  induction l as [|x l IH]; intros card n H; simpl.
  - by rewrite Nat.add_0_r.
  - rewrite (H 0 x eq_refl). rewrite IH.
    + f_equal. lia.
    + intros i y Hy. apply (H (S i) y Hy).
Qed.

Lemma forallb_elem_of {A} (f : A → bool) (l : list A) (x : A) :
  forallb f l = true → x ∈ l → f x = true.
Proof.
  intros H Hx. rewrite forallb_forall in H. apply H. by apply list_elem_of_In.
Qed.

(** The scan of a template literal's fixed text, by computation. *)
Ltac scan_literal :=
  match goal with
  | |- context [scan (tpl ?lit) (mkScan ?d ?n ?b)] =>
      let r := eval vm_compute in (scan (tpl lit) (mkScan d n b)) in
      change (scan (tpl lit) (mkScan d n b)) with r
  end.

Ltac scan_template :=
  rewrite ?scan_app;
  repeat first
    [ scan_literal
    | rewrite scan_plain by (done || apply plain_text_showNat || apply plain_text_showZ)
    | rewrite scan_attribute by (done || apply attribute_text_showNat) ].

(** ** The templates *)

Lemma scan_labItem (lab : Lab.t) (d n : nat) :
  Lab_wf lab = true →
  scan (labItem lab) (mkScan (S d) n InText) = mkScan (S d) n InText.
Proof.
  intros [Ht Hl]%andb_prop. unfold labItem. by scan_template.
Qed.

Lemma scan_semesterSection (semester : Semester.t) (d n : nat) :
  Semester_wf semester = true →
  scan (semesterSection semester) (mkScan (S d) n InText) = mkScan (S d) n InText.
Proof.
  intros [Ht Hl]%andb_prop. unfold semesterSection. scan_template.
  rewrite scan_join_neutral.
  - by scan_template.
  - intros lab Hlab. apply scan_labItem. by eapply forallb_elem_of.
Qed.

Lemma single_moduleCard (index : nat) (module : EducationModule.t) :
  EducationModule_wf module = true → single_element (moduleCard index module).
Proof.
  intros [Ht Hl]%andb_prop n. unfold moduleCard. scan_template.
  rewrite scan_join_neutral.
  - by scan_template.
  - intros semester Hs. apply scan_semesterSection. by eapply forallb_elem_of.
Qed.

Lemma single_featureItem (feature : string) :
  plain_text feature = true → single_element (featureItem feature).
Proof. intros H n. unfold featureItem. by scan_template. Qed.

Lemma scan_techTag (tech : string) (d n : nat) :
  plain_text tech = true →
  scan (techTag tech) (mkScan (S d) n InText) = mkScan (S d) n InText.
Proof. intros H. unfold techTag. by scan_template. Qed.

Lemma scan_itemEntry (item : string) (d n : nat) :
  plain_text item = true →
  scan (itemEntry item) (mkScan (S d) n InText) = mkScan (S d) n InText.
Proof. intros H. unfold itemEntry. by scan_template. Qed.

Lemma single_courseworkCard (index : nat) (work : Coursework.t) :
  Coursework_wf work = true → single_element (courseworkCard index work).
Proof.
  unfold Coursework_wf. rewrite !andb_true_iff. intros [[[[H1 H2] H3] H4] H5] n.
  unfold courseworkCard. scan_template.
  rewrite scan_join_neutral.
  - by scan_template.
  - intros tech Ht. apply scan_techTag. by eapply forallb_elem_of.
Qed.

Lemma single_practicalCard (index : nat) (work : PracticalWork.t) :
  PracticalWork_wf work = true → single_element (practicalCard index work).
Proof.
  unfold PracticalWork_wf. rewrite !andb_true_iff. intros [[[[H1 H2] H3] H4] H5] n.
  unfold practicalCard. scan_template.
  rewrite scan_join_neutral.
  - by scan_template.
  - intros item Hi. apply scan_itemEntry. by eapply forallb_elem_of.
Qed.

Lemma map_fmap {A B} (f : A → B) (l : list A) : map f l = f <$> l.
Proof. induction l; simpl; by f_equal. Qed.

Lemma scan_join_items {A} (item : A → string) (l : list A) (n : nat) :
  (∀ x, x ∈ l → single_element (item x)) →
  scan (join (map item l)) (mkScan 0 n InText) = mkScan 0 (n + length l) InText.
Proof.
  intros H. rewrite map_fmap, <- imap_const. apply scan_join_cards.
  intros i x Hx. apply H. by eapply list_elem_of_lookup_2.
Qed.

Section thesis.
Variable thesis : Thesis.t.
Variable keyFeatures : list string.
Hypothesis thesis_wf : Thesis_wf thesis = true.
Hypothesis thesis_keyFeatures : Thesis.keyFeatures thesis = Some keyFeatures.

Lemma thesis_fields_plain :
  ToBoolean (Thesis.title thesis) = true
  ∧ plain_text (ToString (Thesis.title thesis)) = true
  ∧ plain_text (ToString (Thesis.topic thesis)) = true
  ∧ plain_text (ToString (Thesis.description thesis)) = true
  ∧ forallb plain_text keyFeatures = true
  ∧ attribute_text (ToString (Thesis.link thesis)) = true.
Proof.
  pose proof thesis_wf as H. unfold Thesis_wf in H.
  rewrite thesis_keyFeatures in H. rewrite !andb_true_iff in H. tauto.
Qed.

Lemma scan_thesisCard_head (n : nat) :
  scan (thesisCard_head thesis) (mkScan 0 n InText) = mkScan 4 (S n) InText.
Proof.
  destruct thesis_fields_plain as (_ & H1 & H2 & H3 & _ & _).
  unfold thesisCard_head. by scan_template.
Qed.

Lemma scan_thesisCard_tail (n : nat) :
  scan (thesisCard_tail thesis) (mkScan 4 n InText) = mkScan 0 n InText.
Proof.
  destruct thesis_fields_plain as (_ & _ & _ & _ & _ & H5).
  unfold thesisCard_tail. by scan_template.
Qed.

Lemma scan_featureItem_inside (feature : string) (d n : nat) :
  plain_text feature = true →
  scan (featureItem feature) (mkScan (S d) n InText) = mkScan (S d) n InText.
Proof. intros H. unfold featureItem. by scan_template. Qed.

Lemma single_thesisCard : single_element (thesisCard thesis keyFeatures).
Proof.
  destruct thesis_fields_plain as (_ & _ & _ & _ & H4 & _).
  intros n. unfold thesisCard. rewrite !scan_app, scan_thesisCard_head.
  rewrite scan_join_neutral; [apply scan_thesisCard_tail|].
  intros feature Hf. apply scan_featureItem_inside. by eapply forallb_elem_of.
Qed.

End thesis.

(** ** Render functions *)

Lemma getElementById_assign (id html : string) (p : Page) (el : Element.t) :
  getElementById id p = Some el →
  getElementById id (assign_innerHTML id html p) = Some (Element.set_innerHTML html el).
Proof.
  unfold getElementById, assign_innerHTML. simpl. intros H.
  by rewrite lookup_alter_eq, H.
Qed.

Lemma row_of_cards_intro {A} (card : nat → A → string) (entries : list A) :
  (∀ i x, entries !! i = Some x → single_element (card i x)) →
  row_of_cards card entries (join (imap card entries)).
Proof.
  intros H. split; [done|]. split; [apply length_imap|]. split.
  - intros i x Hx. split; [|by eapply H].
    by rewrite list_lookup_imap, Hx.
  - unfold topLevelElements. by rewrite scan_join_cards.
Qed.

Lemma forallb_lookup {A} (f : A → bool) (l : list A) (i : nat) (x : A) :
  forallb f l = true → l !! i = Some x → f x = true.
Proof. intros H Hx. eapply forallb_elem_of; [done|]. by eapply list_elem_of_lookup_2. Qed.

Lemma map_lookup {A B} (f : A → B) (l : list A) (i : nat) (x : A) :
  l !! i = Some x → map f l !! i = Some (f x).
Proof. intros H. by rewrite map_fmap, list_lookup_fmap, H. Qed.

(** C1 (as amended): for a present container and a well-formed document
    that is not empty, the render functions of the education modules,
    the courseworks and the practical works assign a row of cards, one
    whole top-level element per array entry and in the array's order, so
    the container has as many element children as the array has entries;
    [renderThesis] assigns one card, the container's only child, and
    inside the card's list one item per key feature, in order.
    Well-formed means that no field put between tags has a [<], that no
    link, which is put in a double-quoted attribute value, has a double
    quote, and that the numbers among the fields of the thesis are safe
    integers. *)
Theorem C1_rendered_children (s : Source) (p : Page) :
  is_Some (getElementById (container_id s) p) →
  slot_well_formed s p = true →
  ∃ p', render_function s p = (Normal tt, p') ∧ rendered s p p'.
Proof.
  intros [el Hel] Hwf. destruct s; simpl in *.
  - apply andb_prop in Hwf as [Hne Hwf].
    unfold pure_render, modify, renderEducationModules. rewrite Hel. simpl.
    rewrite (negb_true_iff _) in Hne. rewrite Hne.
    eexists; split; [done|]. eexists; split; [by apply getElementById_assign|].
    simpl. apply row_of_cards_intro. intros i x Hx.
    apply single_moduleCard. by eapply forallb_lookup.
  - unfold renderThesis. rewrite Hel. simpl.
    destruct (Thesis.keyFeatures (thesisData p)) as [keyFeatures|] eqn:Hkf.
    2:{ unfold Thesis_wf in Hwf. rewrite Hkf in Hwf.
        rewrite !andb_true_iff in Hwf. by destruct Hwf as [[_ ?] _]. }
    destruct (thesis_fields_plain _ _ Hwf Hkf) as (Ht & _ & _ & _ & Hf & _).
    rewrite Ht. simpl.
    eexists; split; [done|]. eexists; split; [by apply getElementById_assign|].
    simpl. rewrite Hkf. simpl.
    pose proof (single_thesisCard _ _ Hwf Hkf) as Hcard.
    repeat split.
    + done.
    + unfold topLevelElements. by rewrite Hcard.
    + by eapply scan_thesisCard_head.
    + by apply map_lookup.
    + apply single_featureItem. by eapply forallb_lookup.
    + unfold topLevelElements. rewrite scan_join_items; [done|].
      intros x Hx. apply single_featureItem. by eapply forallb_elem_of.
  - apply andb_prop in Hwf as [Hne Hwf].
    unfold pure_render, modify, renderCourseworks. rewrite Hel. simpl.
    rewrite (negb_true_iff _) in Hne. rewrite Hne.
    eexists; split; [done|]. eexists; split; [by apply getElementById_assign|].
    simpl. apply row_of_cards_intro. intros i x Hx.
    apply single_courseworkCard. by eapply forallb_lookup.
  - apply andb_prop in Hwf as [Hne Hwf].
    unfold pure_render, modify, renderPracticalWorks. rewrite Hel. simpl.
    rewrite (negb_true_iff _) in Hne. rewrite Hne.
    eexists; split; [done|]. eexists; split; [by apply getElementById_assign|].
    simpl. apply row_of_cards_intro. intros i x Hx.
    apply single_practicalCard. by eapply forallb_lookup.
Qed.

Lemma C1_rendered_children_witness :
  (∃ p', render_function SrcEducationModules example_page = (Normal tt, p')
         ∧ rendered SrcEducationModules example_page p')
  ∧ (∃ p', render_function SrcThesis example_page = (Normal tt, p')
           ∧ rendered SrcThesis example_page p')
  ∧ (∃ p', render_function SrcCourseworks example_page = (Normal tt, p')
           ∧ rendered SrcCourseworks example_page p')
  ∧ (∃ p', render_function SrcPracticalWorks example_page = (Normal tt, p')
           ∧ rendered SrcPracticalWorks example_page p').
Proof.
  repeat split;
    (apply C1_rendered_children; [by eexists | by vm_compute]).
Defined.

(** The thesis of the example page has two key features, and
    [renderThesis] gives its container one child, the card: read to the
    letter, C1 fails for the thesis. *)
Lemma C1_thesis_counterexample : ¬ C1_as_stated SrcThesis example_page.
Proof.
  intros H. destruct H as (container & Hc & Hn).
  - by eexists.
  - by vm_compute.
  - vm_compute in Hc. injection Hc as <-. vm_compute in Hn. discriminate Hn.
Qed.

(** C2: a render function whose container is absent from the page, or
    whose variable still holds its empty initial value, completes
    without changing anything: the page after the call is the page
    before it. *)
Theorem C2_render_noop (s : Source) (p : Page) :
  getElementById (container_id s) p = None ∨ slot_empty s p →
  render_function s p = (Normal tt, p).
Proof.
  intros [H|H]; destruct s; simpl in *;
    unfold pure_render, modify, renderEducationModules, renderThesis,
           renderCourseworks, renderPracticalWorks;
    rewrite H; simpl; try done;
    by destruct (getElementById _ p).
Qed.

Lemma C2_render_noop_witness :
  render_function SrcCourseworks (initial_page ∅ [] [] 0)
  = (Normal tt, initial_page ∅ [] [] 0)
  ∧ render_function SrcThesis (initial_page example_document [] [] 0)
    = (Normal tt, initial_page example_document [] [] 0).
Proof.
  split.
  - apply (C2_render_noop SrcCourseworks). left. reflexivity.
  - apply (C2_render_noop SrcThesis). right. reflexivity.
Defined.

(** C10: [renderThesis] looks at the title alone. Whenever the title is
    falsy (absent, the empty string, [null], [false] or zero) it
    completes without changing the page, whatever the other fields
    hold. *)
Theorem C10_thesis_title_guard (p : Page) :
  ToBoolean (Thesis.title (thesisData p)) = false →
  renderThesis p = (Normal tt, p).
Proof.
  intros H. unfold renderThesis. rewrite H. simpl.
  by rewrite orb_true_r.
Qed.

Lemma C10_thesis_title_guard_witness :
  is_Some (getElementById "thesisContent" untitled_page)
  ∧ is_Some (Thesis.keyFeatures (thesisData untitled_page))
  ∧ renderThesis untitled_page = (Normal tt, untitled_page).
Proof.
  split; [by eexists|]. split; [by eexists|].
  apply C10_thesis_title_guard. reflexivity.
Defined.

(** ** The loader *)

Lemma JS_bind_assoc {S A B C} (m : JS S A) (f : A → JS S B) (g : B → JS S C) (s : S) :
  ((m ≫= f) ≫= g) s = (m ≫= (λ a, f a ≫= g)) s.
Proof.
  unfold mbind, JS_bind. by destruct (m s) as [[a|e] s'].
Qed.

Lemma JS_bind_ext {S A B} (m : JS S A) (f g : A → JS S B) (s : S) :
  (∀ a s', f a s' = g a s') → (m ≫= f) s = (m ≫= g) s.
Proof.
  intros H. unfold mbind, JS_bind. by destruct (m s) as [[a|e] s'].
Qed.

Lemma JS_bind_ret {S} (m : JS S unit) (s : S) : (m ≫= λ _, mret tt) s = m s.
Proof.
  unfold mbind, mret, JS_bind, JS_ret. by destruct (m s) as [[[]|e] s'].
Qed.

(** [loadAllData] is its four blocks in the load order, inside the one
    [try]. *)
Lemma loadAllData_blocks (net : Network) (rt : Runtime) :
  loadAllData net rt = try_catch (load_sources load_order net) console_error rt.
Proof.
  unfold loadAllData, try_catch. simpl load_sources.
  match goal with |- match ?a with _ => _ end = match ?b with _ => _ end =>
    replace a with b; [done|] end.
  unfold load_one.
  etrans; [apply JS_bind_assoc|]. apply JS_bind_ext. intros r1 rt1.
  apply JS_bind_ext. intros _ rt2.
  etrans; [apply JS_bind_assoc|]. apply JS_bind_ext. intros r2 rt3.
  apply JS_bind_ext. intros _ rt4.
  etrans; [apply JS_bind_assoc|]. apply JS_bind_ext. intros r3 rt5.
  apply JS_bind_ext. intros _ rt6.
  apply JS_bind_ret.
Qed.

(** What a block does, by the status of its answer. *)
Lemma load_source_spec (s : Source) (net : Network) (rt : Runtime) :
  match answer_status s net with
  | StRejected => load_source s net rt = (Throw NetworkError, fetched s rt)
  | StNotOk => load_source s net rt = (Normal tt, fetched s rt)
  | StUnparsable => load_source s net rt = (Throw SyntaxError, fetched s rt)
  | StParsed =>
      load_source s net rt
      = ((render_function s (put s net (page rt))).1,
         mkRuntime (render_function s (put s net (page rt))).2
                   (events rt ++ [EvFetch s; EvRender s]))
  end.
Proof.
  destruct s; unfold answer_status, status_of, put, parsed, load_source, load_one.
  all: match goal with
       | |- context [match ?a with Rejected => _ | Resolved _ => _ end] =>
           destruct a as [|[[] [d|]]]
       end.
  all: cbv [fetch json store render emit on_page modify throw mbind mret JS_bind JS_ret
            ok json_body fetched page events from_option fst snd]; try done.
  all: rewrite <- app_assoc; simpl app;
       match goal with |- context [render_function ?s ?q] =>
         by destruct (render_function s q) end.
Qed.

Lemma container_id_inj (s o : Source) : container_id s = container_id o → s = o.
Proof. by destruct s, o. Qed.

(** A render function writes to its own container and to nothing else. *)
Lemma render_function_frame (s : Source) (p : Page) :
  let p' := (render_function s p).2 in
  educationModules p' = educationModules p
  ∧ thesisData p' = thesisData p
  ∧ courseworks p' = courseworks p
  ∧ practicalWorks p' = practicalWorks p
  ∧ navLinks p' = navLinks p
  ∧ sections p' = sections p
  ∧ scrollY p' = scrollY p
  ∧ ∀ id, id ≠ container_id s → getElementById id p' = getElementById id p.
Proof.
  destruct s; simpl;
    unfold pure_render, modify, renderEducationModules, renderThesis,
           renderCourseworks, renderPracticalWorks; simpl;
    repeat match goal with
           | |- context [if ?b then _ else _] => destruct b; simpl
           | |- context [match ?o with Some _ => _ | None => _ end] => destruct o; simpl
           end;
    repeat split; try done;
    intros id Hid; unfold getElementById; simpl; by rewrite lookup_alter_ne.
Qed.

Lemma render_function_untouched (s o : Source) (p : Page) :
  o ≠ s → untouched o p (render_function s p).2.
Proof.
  intros Hne. destruct (render_function_frame s p) as (H1 & H2 & H3 & H4 & _ & _ & _ & H8).
  split.
  - by destruct o.
  - apply H8. intros H. by apply container_id_inj in H.
Qed.

Lemma put_untouched (s o : Source) (net : Network) (p : Page) :
  o ≠ s → untouched o p (put s net p).
Proof.
  intros Hne. destruct s, o; try done; unfold put;
    match goal with |- context [parsed ?a] => destruct (parsed a) end; by split.
Qed.

Lemma untouched_refl (o : Source) (p : Page) : untouched o p p.
Proof. split; [by destruct o|done]. Qed.

Lemma untouched_trans (o : Source) (p1 p2 p3 : Page) :
  untouched o p1 p2 → untouched o p2 p3 → untouched o p1 p3.
Proof.
  intros [H1 H2] [H3 H4]. split; [|congruence].
  destruct o; simpl in *; congruence.
Qed.

(** A render function throws only for a thesis without its list. *)
Lemma render_function_normal (s : Source) (p : Page) :
  match s with
  | SrcThesis => is_Some (Thesis.keyFeatures (thesisData p))
  | _ => True
  end →
  (render_function s p).1 = Normal tt.
Proof.
  destruct s; simpl; try done.
  intros [l Hl]. unfold renderThesis. rewrite Hl.
  by destruct (_ || _).
Qed.

Lemma put_stored (s : Source) (net : Network) (p : Page) :
  answer_status s net = StParsed → stored s net (put s net p).
Proof.
  destruct s; unfold answer_status, status_of, stored, put, parsed;
    match goal with
    | |- context [match ?a with Rejected => _ | Resolved _ => _ end] =>
        destruct a as [|[[] [d|]]]
    end; simpl; done.
Qed.

Lemma stored_slot_same (s : Source) (net : Network) (p p' : Page) :
  stored s net p → slot_same s p p' → stored s net p'.
Proof. destruct s; simpl; congruence. Qed.

(** ** Runs that deal with some sources only *)

Lemma only_about_refl (l : list Source) (rt : Runtime) : only_about l rt rt.
Proof.
  split.
  - exists []. split; [by rewrite app_nil_r|]. by intros e He%elem_of_nil.
  - intros o _. apply untouched_refl.
Qed.

Lemma only_about_trans (l1 l2 : list Source) (rt1 rt2 rt3 : Runtime) :
  only_about l1 rt1 rt2 → only_about l2 rt2 rt3 → only_about (l1 ++ l2) rt1 rt3.
Proof.
  intros [(evs1 & E1 & H1) U1] [(evs2 & E2 & H2) U2]. split.
  - exists (evs1 ++ evs2). split; [by rewrite E2, E1, app_assoc|].
    intros e [He|He]%elem_of_app.
    + destruct (H1 e He) as (s & Hs & Hl). exists s. split; [done|]. apply elem_of_app. by left.
    + destruct (H2 e He) as (s & Hs & Hl). exists s. split; [done|]. apply elem_of_app. by right.
  - intros o Ho. rewrite elem_of_app in Ho.
    eapply untouched_trans; [apply U1|apply U2]; tauto.
Qed.

Lemma only_about_fetched (s : Source) (rt : Runtime) : only_about [s] rt (fetched s rt).
Proof.
  split.
  - exists [EvFetch s]. split; [done|].
    intros e ->%list_elem_of_singleton. exists s. split; [done|]. by left.
  - intros o _. apply untouched_refl.
Qed.

Lemma load_source_about (s : Source) (net : Network) (rt : Runtime) :
  only_about [s] rt (load_source s net rt).2.
Proof.
  pose proof (load_source_spec s net rt) as H.
  destruct (answer_status s net); rewrite H; simpl; try apply only_about_fetched.
  split.
  - exists [EvFetch s; EvRender s]. split; [done|].
    intros e He. exists s. split; [|by left].
    apply elem_of_cons in He as [->|He]; [done|].
    by apply list_elem_of_singleton in He as ->.
  - intros o Ho. simpl.
    assert (o ≠ s) as Hne by (intros ->; apply Ho; by left).
    eapply untouched_trans; [by apply put_untouched|by apply render_function_untouched].
Qed.

Lemma load_sources_cons (s : Source) (l : list Source) (net : Network) (rt : Runtime) :
  load_sources (s :: l) net rt
  = match load_source s net rt with
    | (Normal _, rt') => load_sources l net rt'
    | (Throw e, rt') => (Throw e, rt')
    end.
Proof. done. Qed.

Lemma load_sources_about (l : list Source) (net : Network) (rt : Runtime) :
  only_about l rt (load_sources l net rt).2.
Proof.
  revert rt. induction l as [|s l IH]; intros rt.
  - apply only_about_refl.
  - rewrite load_sources_cons. pose proof (load_source_about s net rt) as Hs.
    destruct (load_source s net rt) as [[[]|e] rt1]; simpl in *.
    + apply (only_about_trans [s] l _ rt1); [done|apply IH].
    + apply (only_about_trans [s] l _ rt1); [done|apply only_about_refl].
Qed.

Lemma only_about_weaken (l l' : list Source) (rt rt' : Runtime) :
  l ⊆ l' → only_about l rt rt' → only_about l' rt rt'.
Proof.
  intros Hsub [(evs & E & H) U]. split.
  - exists evs. split; [done|]. intros e He.
    destruct (H e He) as (s & Hs & Hl). exists s. split; [done|]. by apply Hsub.
  - intros o Ho. apply U. intros Hl. by apply Ho, Hsub.
Qed.

(** Once a block throws, the rest of the blocks does not run. *)
Lemma load_sources_abort (l1 : list Source) (s : Source) (l2 : list Source)
    (net : Network) (rt : Runtime) :
  answer_status s net = StRejected ∨ answer_status s net = StUnparsable →
  ∃ e rt', load_sources (l1 ++ s :: l2) net rt = (Throw e, rt')
           ∧ only_about (l1 ++ [s]) rt rt'.
Proof.
  intros Hs. revert rt. induction l1 as [|a l1 IH]; intros rt.
  - simpl app. rewrite load_sources_cons.
    pose proof (load_source_spec s net rt) as H.
    destruct Hs as [Hs|Hs]; rewrite Hs in H; rewrite H;
      eexists _, _; (split; [done|apply only_about_fetched]).
  - change ((a :: l1) ++ s :: l2) with (a :: (l1 ++ s :: l2)).
    rewrite load_sources_cons. pose proof (load_source_about a net rt) as Ha.
    destruct (load_source a net rt) as [[[]|e] rt1]; simpl in Ha.
    + destruct (IH rt1) as (e & rt' & E & H). exists e, rt'. split; [done|].
      by apply (only_about_trans [a] (l1 ++ [s]) _ rt1).
    + exists e, rt1. split; [done|].
      apply (only_about_weaken [a]); [|done].
      intros x ->%list_elem_of_singleton. by left.
Qed.

Lemma loaded_throw (net : Network) (p : Page) (e : Error) (rt' : Runtime) :
  load_sources load_order net (mkRuntime p []) = (Throw e, rt') →
  loaded net p = mkRuntime (page rt') (events rt' ++ [EvConsoleError e]).
Proof.
  intros H. unfold loaded. rewrite loadAllData_blocks. unfold try_catch. by rewrite H.
Qed.

Lemma loaded_normal (net : Network) (p : Page) (rt' : Runtime) :
  load_sources load_order net (mkRuntime p []) = (Normal tt, rt') →
  loaded net p = rt'.
Proof.
  intros H. unfold loaded. rewrite loadAllData_blocks. unfold try_catch. by rewrite H.
Qed.

Lemma load_order_split (s : Source) :
  load_order = take (position s) load_order ++ s :: drop (S (position s)) load_order.
Proof. by destruct s. Qed.

Lemma later_not_before (s later : Source) :
  position s < position later → later ∉ take (position s) load_order ++ [s].
Proof.
  intros Hlt Hin. destruct s, later; simpl in *; try lia;
    repeat (apply elem_of_cons in Hin as [Hin|Hin]; [discriminate|]);
    by apply elem_of_nil in Hin.
Qed.

(** After a run from a fresh state that was only about sources of [l]
    and ended in the [catch], a source outside [l] has no event and is
    untouched. *)
Lemma aborted_run_skips (l : list Source) (p : Page) (rt' : Runtime) (e : Error) (o : Source) :
  only_about l (mkRuntime p []) rt' → o ∉ l →
  let final := mkRuntime (page rt') (events rt' ++ [EvConsoleError e]) in
  (EvFetch o ∉ events final) ∧ (EvRender o ∉ events final) ∧ untouched o p (page final).
Proof.
  intros [(evs & E & H) U] Ho. simpl in *. subst.
  assert (∀ ev, event_source ev = Some o → ev ∉ events rt' ++ [EvConsoleError e]) as Hev.
  { intros ev Hsrc [Hin|Hin]%elem_of_app.
    - destruct (H ev Hin) as (s & Hs & Hl). congruence.
    - apply list_elem_of_singleton in Hin as ->. discriminate. }
  split; [by apply Hev|]. split; [by apply Hev|]. by apply U.
Qed.

(** C3: when an earlier source's body is not JSON, parsing it throws,
    and no later source in the fixed order is fetched, stored or
    rendered: after [loadAllData] a later source has no fetch and no
    render among the events, and its variable and its container are as
    they were. *)
Theorem C3_parse_failure_aborts_later (net : Network) (p : Page) (s later : Source) :
  answer_status s net = StUnparsable →
  position s < position later →
  (EvFetch later ∉ events (loaded net p))
  ∧ (EvRender later ∉ events (loaded net p))
  ∧ untouched later p (page (loaded net p)).
Proof.
  intros Hs Hlt.
  destruct (load_sources_abort (take (position s) load_order) s
              (drop (S (position s)) load_order) net (mkRuntime p []))
    as (e & rt' & E & H); [by right|].
  rewrite <- load_order_split in E. rewrite (loaded_throw _ _ _ _ E).
  eapply aborted_run_skips; [done|]. by apply later_not_before.
Qed.

Lemma C3_parse_failure_aborts_later_witness :
  (EvFetch SrcCourseworks
     ∉ events (loaded broken_thesis_network (initial_page example_document [] [] 0)))
  ∧ (EvRender SrcCourseworks
       ∉ events (loaded broken_thesis_network (initial_page example_document [] [] 0)))
  ∧ untouched SrcCourseworks (initial_page example_document [] [] 0)
      (page (loaded broken_thesis_network (initial_page example_document [] [] 0))).
Proof.
  apply (C3_parse_failure_aborts_later broken_thesis_network _ SrcThesis SrcCourseworks).
  - reflexivity.
  - simpl. lia.
Defined.

(** ** Sources that are skipped, and sources that go through *)

Lemma quiet_refl (s : Source) (rt : Runtime) : quiet s rt rt.
Proof.
  split; [|apply untouched_refl].
  exists []. split; [by rewrite app_nil_r|]. by intros H%elem_of_nil.
Qed.

Lemma quiet_trans (s : Source) (rt1 rt2 rt3 : Runtime) :
  quiet s rt1 rt2 → quiet s rt2 rt3 → quiet s rt1 rt3.
Proof.
  intros [(evs1 & E1 & H1) U1] [(evs2 & E2 & H2) U2]. split.
  - exists (evs1 ++ evs2). split; [by rewrite E2, E1, app_assoc|].
    by intros [H|H]%elem_of_app.
  - by eapply untouched_trans.
Qed.

Lemma only_about_quiet (l : list Source) (s : Source) (rt rt' : Runtime) :
  only_about l rt rt' → s ∉ l → quiet s rt rt'.
Proof.
  intros [(evs & E & H) U] Hs. split; [|by apply U].
  exists evs. split; [done|]. intros Hin.
  destruct (H _ Hin) as (o & Ho & Hl). simpl in Ho. congruence.
Qed.

Lemma quiet_fetched (s o : Source) (rt : Runtime) : quiet s rt (fetched o rt).
Proof.
  split; [|apply untouched_refl].
  exists [EvFetch o]. split; [done|]. by intros H%list_elem_of_singleton.
Qed.

(** A source whose answer does not parse is neither stored nor rendered
    by any block. *)
Lemma load_source_quiet (s o : Source) (net : Network) (rt : Runtime) :
  answer_status s net ≠ StParsed → quiet s rt (load_source o net rt).2.
Proof.
  intros Hs. destruct (decide (o = s)) as [->|Hne].
  - pose proof (load_source_spec s net rt) as H.
    destruct (answer_status s net); try done; rewrite H; apply quiet_fetched.
  - eapply only_about_quiet; [apply load_source_about|].
    by intros ->%list_elem_of_singleton.
Qed.

Lemma load_sources_quiet (s : Source) (l : list Source) (net : Network) (rt : Runtime) :
  answer_status s net ≠ StParsed → quiet s rt (load_sources l net rt).2.
Proof.
  intros Hs. revert rt. induction l as [|o l IH]; intros rt.
  - apply quiet_refl.
  - rewrite load_sources_cons. pose proof (load_source_quiet s o net rt Hs) as Ho.
    destruct (load_source o net rt) as [[[]|e] rt1]; simpl in *; [|done].
    eapply quiet_trans; [done|apply IH].
Qed.

Lemma loaded_quiet (s : Source) (net : Network) (p : Page) :
  answer_status s net ≠ StParsed →
  slot_same s p (page (loaded net p)) ∧ (EvRender s ∉ events (loaded net p)).
Proof.
  intros Hs. pose proof (load_sources_quiet s load_order net (mkRuntime p []) Hs) as H.
  destruct (load_sources load_order net (mkRuntime p [])) as [[[]|e] rt'] eqn:E.
  - rewrite (loaded_normal _ _ _ E). destruct H as [(evs & Ev & Hn) [U _]]. simpl in *.
    split; [done|]. by rewrite Ev.
  - rewrite (loaded_throw _ _ _ _ E). destruct H as [(evs & Ev & Hn) [U _]]. simpl in *.
    split; [done|]. rewrite Ev. intros [Hin|Hin]%elem_of_app; [done|].
    by apply list_elem_of_singleton in Hin.
Qed.



Lemma NoDup_load_order : NoDup load_order.
Proof. apply (bool_decide_unpack _). by vm_compute. Qed.

Lemma elem_of_load_order (s : Source) : s ∈ load_order.
Proof. destruct s; unfold load_order; set_solver. Qed.




(** ** Toggle of a module card *)

Lemma content_icon_ids_differ (index : nat) :
  "module-content-" +:+ showNat index ≠ "module-icon-" +:+ showNat index.
Proof. intros H. cbv [String.append] in H. discriminate H. Qed.

(** The state a toggle writes, from the [display] it reads. *)
Lemma toggleModule_document (index : nat) (p : Page) (content icon : Element.t) (k : string) :
  getElementById ("module-content-" +:+ showNat index) p = Some content →
  getElementById ("module-icon-" +:+ showNat index) p = Some icon →
  document (toggleModule index p) !! k =
    if decide (k = "module-icon-" +:+ showNat index) then
      Some (Element.set_transform
              (if String.eqb (Element.display content) "none"
               then "rotate(180deg)" else "rotate(0deg)") icon)
    else if decide (k = "module-content-" +:+ showNat index) then
      Some (Element.set_display
              (if String.eqb (Element.display content) "none"
               then "block" else "none") content)
    else document p !! k.
Proof.
  intros Hc Hi. pose proof (content_icon_ids_differ index) as Hne.
  unfold toggleModule. rewrite Hc, Hi. unfold getElementById in *.
  destruct (String.eqb (Element.display content) "none"); simpl;
    repeat case_decide; subst;
    rewrite ?lookup_alter_eq, ?lookup_alter_ne, ?Hc, ?Hi by done; try done;
    rewrite ?lookup_alter_eq, ?lookup_alter_ne, ?Hc, ?Hi by done; done.
Qed.

Lemma toggleModule_fields (index : nat) (p : Page) :
  toggleModule index p = set_document (document (toggleModule index p)) p.
Proof.
  unfold toggleModule.
  destruct (getElementById ("module-content-" +:+ showNat index) p) as [content|];
    [|by destruct p].
  destruct (getElementById ("module-icon-" +:+ showNat index) p) as [icon|];
    [|by destruct p].
  by destruct (String.eqb _ _).
Qed.

Lemma toggleModule_eq (index : nat) (p q r : Page) :
  (∀ k, document (toggleModule index q) !! k = document r !! k) →
  q = set_document (document q) p → r = set_document (document r) p →
  toggleModule index q = r.
Proof.
  intros Hk Hq Hr. apply map_eq in Hk. rewrite toggleModule_fields, Hk.
  transitivity (set_document (document r) p); [|done].
  by rewrite Hq.
Qed.

Lemma presentation_toggleModule (index : nat) (p : Page) (d t : string) :
  presentation index p = Some (d, t) →
  presentation index (toggleModule index p)
  = Some (if String.eqb d "none" then ("block", "rotate(180deg)")
          else ("none", "rotate(0deg)")).
Proof.
  unfold presentation.
  destruct (getElementById ("module-content-" +:+ showNat index) p) as [content|] eqn:Hc;
    [|done].
  destruct (getElementById ("module-icon-" +:+ showNat index) p) as [icon|] eqn:Hi;
    [|done].
  intros H. simplify_eq. unfold getElementById at 1 2.
  rewrite !(toggleModule_document index p content icon) by done.
  pose proof (content_icon_ids_differ index).
  repeat case_decide; try done.
  by destruct (String.eqb _ _).
Qed.

Lemma toggleModule_elements (index : nat) (p : Page) (ci : Element.t * Element.t) (k : string) :
  getElementById ("module-content-" +:+ showNat index) p = Some ci.1 →
  getElementById ("module-icon-" +:+ showNat index) p = Some ci.2 →
  document (toggleModule index p) !! k =
    if decide (k = "module-icon-" +:+ showNat index) then Some (toggle_elements ci).2
    else if decide (k = "module-content-" +:+ showNat index) then Some (toggle_elements ci).1
    else document p !! k.
Proof.
  intros Hc Hi. rewrite (toggleModule_document index p ci.1 ci.2) by done.
  unfold toggle_elements. by destruct (String.eqb _ _).
Qed.

Lemma toggleModule_elements_found (index : nat) (p : Page) (ci : Element.t * Element.t) :
  getElementById ("module-content-" +:+ showNat index) p = Some ci.1 →
  getElementById ("module-icon-" +:+ showNat index) p = Some ci.2 →
  getElementById ("module-content-" +:+ showNat index) (toggleModule index p)
  = Some (toggle_elements ci).1
  ∧ getElementById ("module-icon-" +:+ showNat index) (toggleModule index p)
    = Some (toggle_elements ci).2.
Proof.
  intros Hc Hi. pose proof (content_icon_ids_differ index).
  unfold getElementById at 1 2.
  rewrite !(toggleModule_elements index p ci) by done.
  by repeat case_decide.
Qed.

Lemma toggle_elements_twice (c i : Element.t) :
  toggled_state (Element.display c) (Element.transform i) →
  toggle_elements (toggle_elements (c, i)) = (c, i).
Proof.
  destruct c as [h l d t], i as [h' l' d' t']. simpl.
  by intros [[-> ->]|[-> ->]].
Qed.

Lemma toggle_elements_thrice (ci : Element.t * Element.t) :
  toggle_elements (toggle_elements (toggle_elements ci)) = toggle_elements ci.
Proof.
  destruct ci as [[h l d t] [h' l' d' t']]. unfold toggle_elements. simpl.
  by destruct (String.eqb d "none").
Qed.

(** C5 (as amended): for a card whose content and icon are in the
    document, two toggles leave the content's [display] at ['none'] with
    the icon at ['rotate(0deg)'] when the [display] was ['none'], and at
    ['block'] with ['rotate(180deg)'] otherwise. So two toggles give the
    page back exactly when the card was in one of the two states a
    toggle writes, and from the second toggle on toggling is an
    involution. For a freshly rendered card, whose icon has no inline
    transform, the [display] comes back and the transform becomes
    ['rotate(0deg)']. *)
Theorem C5_toggle_twice (index : nat) (p : Page) (d t : string) :
  presentation index p = Some (d, t) →
  presentation index (toggleModule index (toggleModule index p))
  = Some (if String.eqb d "none" then ("none", "rotate(0deg)")
          else ("block", "rotate(180deg)"))
  ∧ (toggled_state d t → toggleModule index (toggleModule index p) = p)
  ∧ toggleModule index (toggleModule index (toggleModule index p)) = toggleModule index p.
Proof.
  intros Hp. split; [|split].
  - rewrite (presentation_toggleModule index (toggleModule index p)
               (if String.eqb d "none" then "block" else "none")
               (if String.eqb d "none" then "rotate(180deg)" else "rotate(0deg)")).
    + by destruct (String.eqb d "none").
    + rewrite (presentation_toggleModule index p d t Hp). by destruct (String.eqb d "none").
  - intros Hst. unfold presentation in Hp.
    destruct (getElementById ("module-content-" +:+ showNat index) p) as [c|] eqn:Hc;
      [|done].
    destruct (getElementById ("module-icon-" +:+ showNat index) p) as [i|] eqn:Hi;
      [|done].
    simplify_eq.
    destruct (toggleModule_elements_found index p (c, i) Hc Hi) as [Hc1 Hi1].
    apply (toggleModule_eq index p).
    + intros k.
      rewrite (toggleModule_elements index _ (toggle_elements (c, i))) by done.
      rewrite toggle_elements_twice by done. unfold getElementById in *.
      repeat case_decide; subst; simpl; rewrite ?Hi, ?Hc; try done.
      rewrite (toggleModule_elements index p (c, i)) by done.
      by repeat case_decide.
    + apply toggleModule_fields.
    + by destruct p.
  - unfold presentation in Hp.
    destruct (getElementById ("module-content-" +:+ showNat index) p) as [c|] eqn:Hc;
      [|done].
    destruct (getElementById ("module-icon-" +:+ showNat index) p) as [i|] eqn:Hi;
      [|done].
    destruct (toggleModule_elements_found index p (c, i) Hc Hi) as [Hc1 Hi1].
    destruct (toggleModule_elements_found index _ (toggle_elements (c, i)) Hc1 Hi1)
      as [Hc2 Hi2].
    apply (toggleModule_eq index p).
    + intros k.
      rewrite (toggleModule_elements index _ (toggle_elements (toggle_elements (c, i))))
        by done.
      rewrite toggle_elements_thrice.
      rewrite (toggleModule_elements index _ (toggle_elements (c, i))) by done.
      rewrite (toggleModule_elements index p (c, i)) by done.
      by repeat case_decide.
    + rewrite (toggleModule_fields index (toggleModule index p)).
      by rewrite (toggleModule_fields index p) at 2.
    + apply toggleModule_fields.
Qed.

Lemma C5_toggle_twice_witness :
  (* from the freshly rendered card *)
  presentation 0 (toggleModule 0 (toggleModule 0 fresh_card_page))
  = Some ("none", "rotate(0deg)")
  (* from the card toggled once, which is in a state a toggle writes *)
  ∧ toggled_state "block" "rotate(180deg)"
  ∧ toggleModule 0 (toggleModule 0 (toggleModule 0 fresh_card_page))
    = toggleModule 0 fresh_card_page.
Proof.
  split; [|split].
  - apply (C5_toggle_twice 0 fresh_card_page "none" EmptyString). reflexivity.
  - right. split; reflexivity.
  - apply (C5_toggle_twice 0 (toggleModule 0 fresh_card_page) "block" "rotate(180deg)").
    + reflexivity.
    + right. split; reflexivity.
Defined.

(** A freshly rendered card has no inline transform on its icon; after
    two toggles the icon carries ['rotate(0deg)']: read to the letter, C5
    fails on the state the render function itself produces. *)
Lemma C5_fresh_card_counterexample : ¬ C5_as_stated 0 fresh_card_page.
Proof.
  intros H. unfold C5_as_stated in H.
  assert (is_Some (presentation 0 fresh_card_page)) as Hs by (by eexists).
  specialize (H Hs). vm_compute in H. discriminate H.
Qed.

(** ** Class lists *)

Lemma classList_contains_remove (c : string) (l : list string) :
  classList_contains c (classList_remove c l) = false.
Proof.
  unfold classList_contains, classList_remove. apply bool_decide_eq_false.
  intros [H _]%list_elem_of_filter. done.
Qed.

Lemma classList_contains_add (c : string) (l : list string) :
  classList_contains c (classList_add c l) = true.
Proof.
  unfold classList_add. destruct (classList_contains c l) eqn:E; [done|].
  unfold classList_contains. apply bool_decide_eq_true, elem_of_app. right. by left.
Qed.

Lemma classList_remove_idemp (c : string) (l : list string) :
  classList_remove c (classList_remove c l) = classList_remove c l.
Proof.
  unfold classList_remove. induction l as [|x l IH]; [done|].
  rewrite filter_cons. case_decide; [|done].
  rewrite filter_cons. case_decide; [|done]. by f_equal.
Qed.

Lemma classList_remove_add (c : string) (l : list string) :
  classList_remove c (classList_add c l) = classList_remove c l.
Proof.
  unfold classList_add. destruct (classList_contains c l); [done|].
  unfold classList_remove. rewrite filter_app, filter_cons.
  case_decide; [done|]. by rewrite filter_nil, app_nil_r.
Qed.

(** ** The active navigation link *)

Lemma set_navLinks_id (p : Page) : set_navLinks (navLinks p) p = p.
Proof. by destruct p. Qed.

Lemma updateActiveNavLink_section_links (y : Z) (p : Page) (section : PageSection.t) :
  updateActiveNavLink_section y p section
  = set_navLinks (if in_tested_band y section
                  then mark_section (navLinks p) section else navLinks p) p.
Proof.
  unfold updateActiveNavLink_section, in_tested_band, mark_section, querySelector_navLink.
  destruct (_ && _); [|by rewrite set_navLinks_id].
  by destruct (fst <$> list_find _ (navLinks p)).
Qed.

Lemma updateActiveNavLink_links (p : Page) :
  updateActiveNavLink p
  = set_navLinks
      (foldl (λ links section,
                if in_tested_band (scrollY p) section
                then mark_section links section else links)
             (navLinks p) (sections p)) p.
Proof.
  unfold updateActiveNavLink. generalize (scrollY p) as y. intros y.
  generalize (sections p) as secs. intros secs. revert p.
  induction secs as [|s secs IH]; intros p; simpl.
  - by rewrite set_navLinks_id.
  - rewrite IH, updateActiveNavLink_section_links. done.
Qed.

Lemma list_find_hrefs (h : string) (l l' : list NavLink.t) :
  NavLink.href <$> l = NavLink.href <$> l' →
  fst <$> list_find (λ a, NavLink.href a = h) l
  = fst <$> list_find (λ a, NavLink.href a = h) l'.
Proof.
  revert l'. induction l as [|a l IH]; intros [|a' l'] H; try done.
  simpl in H. injection H as Ha Hl. simpl. rewrite <- Ha.
  case_decide; [done|]. specialize (IH l' Hl).
  destruct (list_find _ l) as [[i x]|], (list_find _ l') as [[i' x']|];
    simpl in *; congruence.
Qed.

Lemma mark_section_same (l l' : list NavLink.t) (section : PageSection.t) :
  same_links l l' → mark_section l section = mark_section l' section.
Proof.
  intros [Hh Hc]. unfold mark_section.
  by rewrite (list_find_hrefs _ l l' Hh), Hc.
Qed.

Lemma navLink_update_remove_add (a : NavLink.t) :
  navLink_update (classList_remove "active")
    (navLink_update (classList_add "active") (navLink_update (classList_remove "active") a))
  = navLink_update (classList_remove "active") a.
Proof.
  destruct a as [h l]. unfold navLink_update, NavLink.set_classList. simpl.
  by rewrite classList_remove_add, classList_remove_idemp.
Qed.

Lemma navLink_update_remove_remove (a : NavLink.t) :
  navLink_update (classList_remove "active") (navLink_update (classList_remove "active") a)
  = navLink_update (classList_remove "active") a.
Proof.
  destruct a as [h l]. unfold navLink_update, NavLink.set_classList. simpl.
  by rewrite classList_remove_idemp.
Qed.

Lemma mark_section_same_links (l : list NavLink.t) (section : PageSection.t) :
  same_links (mark_section l section) l.
Proof.
  unfold mark_section, same_links.
  destruct (fst <$> list_find _ l) as [i|]; split.
  - apply list_eq. intros j. rewrite !list_lookup_fmap.
    destruct (decide (i = j)) as [->|Hne].
    + rewrite list_lookup_alter_eq, list_lookup_fmap. by destruct (l !! j).
    + rewrite list_lookup_alter_ne, list_lookup_fmap by done. by destruct (l !! j).
  - apply list_eq. intros j. rewrite !list_lookup_fmap.
    destruct (decide (i = j)) as [->|Hne].
    + rewrite list_lookup_alter_eq, list_lookup_fmap. destruct (l !! j); [|done].
      simpl. by rewrite navLink_update_remove_add.
    + rewrite list_lookup_alter_ne, list_lookup_fmap by done. destruct (l !! j); [|done].
      simpl. by rewrite navLink_update_remove_remove.
  - apply list_eq. intros j. rewrite !list_lookup_fmap. by destruct (l !! j).
  - apply list_eq. intros j. rewrite !list_lookup_fmap. destruct (l !! j); [|done].
    simpl. by rewrite navLink_update_remove_remove.
Qed.

Lemma same_links_trans (l1 l2 l3 : list NavLink.t) :
  same_links l1 l2 → same_links l2 l3 → same_links l1 l3.
Proof. intros [H1 H2] [H3 H4]. split; congruence. Qed.

Lemma foldl_mark_same_links (y : Z) (links : list NavLink.t) (secs : list PageSection.t) :
  same_links
    (foldl (λ links section,
              if in_tested_band y section then mark_section links section else links)
           links secs) links.
Proof.
  revert links. induction secs as [|s secs IH]; intros links; simpl; [done|].
  eapply same_links_trans; [apply IH|].
  destruct (in_tested_band y s); [apply mark_section_same_links|done].
Qed.

Lemma foldl_mark_none (y : Z) (links : list NavLink.t) (secs : list PageSection.t) :
  (∀ s, s ∈ secs → in_tested_band y s = false) →
  foldl (λ links section,
           if in_tested_band y section then mark_section links section else links)
        links secs = links.
Proof.
  revert links. induction secs as [|s secs IH]; intros links H; simpl; [done|].
  rewrite (H s) by left. apply IH. intros s' Hs'. apply H. by right.
Qed.

(** The loop leaves the links as the last section whose band holds the
    offset marks them. *)
Lemma foldl_mark_last (y : Z) (links : list NavLink.t)
    (before : list PageSection.t) (section : PageSection.t) (after : list PageSection.t) :
  in_tested_band y section = true →
  (∀ s, s ∈ after → in_tested_band y s = false) →
  foldl (λ links section,
           if in_tested_band y section then mark_section links section else links)
        links (before ++ section :: after)
  = mark_section links section.
Proof.
  intros Hs Hafter. rewrite foldl_app. simpl. rewrite Hs.
  rewrite foldl_mark_none by done.
  apply mark_section_same, foldl_mark_same_links.
Qed.





(** ** Dispatch of an event *)

Lemma dispatch_listens (listeners : list Listener) (t : Target) (ty : EventType) (p : Page) :
  dispatch listeners t ty p
  = foldl run_listener ([], p) (filter (listens t ty) listeners).
Proof.
  unfold dispatch. generalize (@nil Error, p) as acc.
  induction listeners as [|l ls IH]; intros acc; [done|].
  rewrite filter_cons. simpl.
  destruct (decide (l_target l = t)) as [Ht|Ht], (decide (l_type l = ty)) as [Hty|Hty].
  - rewrite decide_True by done. rewrite !bool_decide_eq_true_2 by done. simpl. apply IH.
  - rewrite decide_False by (by intros [? ?]).
    rewrite (bool_decide_eq_false_2 (l_type l = ty)) by done.
    rewrite andb_false_r. apply IH.
  - rewrite decide_False by (by intros [? ?]).
    rewrite (bool_decide_eq_false_2 (l_target l = t)) by done. apply IH.
  - rewrite decide_False by (by intros [? ?]).
    rewrite (bool_decide_eq_false_2 (l_target l = t)) by done. apply IH.
Qed.

Lemma filter_imap_nil {A B} (P : B → Prop) `{∀ x, Decision (P x)} (f : nat → A → B)
    (l : list A) :
  (∀ j x, ¬ P (f j x)) → filter P (imap f l) = [].
Proof.
  revert f. induction l as [|x l IH]; intros f Hf; [done|].
  rewrite imap_cons, filter_cons, decide_False by apply Hf.
  apply IH. intros j y. apply Hf.
Qed.

(** Of the listeners added to the navigation links, the one of link [i]
    is the only one a click on link [i] runs. *)
Lemma filter_navLink_listeners (h : Handler) (links : list NavLink.t) (n i : nat) :
  filter (listens (OnNavLink i) Click)
         (imap (λ j _, mkListener (OnNavLink (n + j)) Click h) links)
  = if decide (n ≤ i < n + length links) then [mkListener (OnNavLink i) Click h] else [].
Proof.
  revert n. induction links as [|a links IH]; intros n.
  - simpl. case_decide; [lia|done].
  - rewrite imap_cons, filter_cons.
    rewrite (imap_ext _ (λ j _, mkListener (OnNavLink (S n + j)) Click h)).
    2:{ intros j x _. simpl. do 3 f_equal. lia. }
    rewrite IH. simpl length.
    destruct (decide (n = i)) as [->|Hne].
    + rewrite Nat.add_0_r. rewrite decide_True by done.
      rewrite (decide_False (P := S i ≤ i < _)) by lia.
      by rewrite decide_True by lia.
    + rewrite decide_False.
      2:{ intros [H _]. simpl in H. injection H as H. lia. }
      repeat case_decide; try done; lia.
Qed.

(** The listeners a click on navigation link [i] runs: the one
    [initNavigation] added to that link. *)
Lemma navLink_click_listeners (p : Page) (i : nat) :
  i < length (navLinks p) →
  filter (listens (OnNavLink i) Click) (page_listeners p)
  = [mkListener (OnNavLink i) Click (NavLinkClick (getRef "navToggle" p) (getRef "navMenu" p))].
Proof.
  intros Hi. unfold page_listeners, initNavigation, initBackToTop.
  rewrite !filter_app.
  pose proof (filter_navLink_listeners
                (NavLinkClick (getRef "navToggle" p) (getRef "navMenu" p))
                (navLinks p) 0 i) as H.
  simpl in H. rewrite H. rewrite decide_True by lia.
  destruct (negb (is_null (getRef "navToggle" p)) && negb (is_null (getRef "navMenu" p)));
    destruct (negb (is_null (getRef "backToTop" p))); done.
Qed.

(** The listeners a click on the menu toggle runs: none, unless both the
    toggle and the menu were found. *)
Lemma navToggle_click_listeners (p : Page) :
  filter (listens OnNavToggle Click) (page_listeners p)
  = if negb (is_null (getRef "navToggle" p)) && negb (is_null (getRef "navMenu" p))
    then [mkListener OnNavToggle Click
            (MenuToggleClick (getRef "navToggle" p) (getRef "navMenu" p))]
    else [].
Proof.
  unfold page_listeners, initNavigation, initBackToTop. rewrite !filter_app.
  rewrite (filter_imap_nil (listens OnNavToggle Click)).
  2:{ intros j x [H _]. discriminate H. }
  destruct (negb (is_null (getRef "navToggle" p)) && negb (is_null (getRef "navMenu" p)));
    destruct (negb (is_null (getRef "backToTop" p))); done.
Qed.

(** C9: the listener of a navigation link reads [navToggle.classList]
    with no check, while the menu toggle gets its listener only when
    both the toggle and the menu exist. On a page with a navigation link
    and no [navToggle] element, a click on the link runs a listener that
    throws a [TypeError] and changes nothing, and no listener was added
    for the toggle. *)
Theorem C9_navLink_click_unguarded (p : Page) (i : nat) :
  i < length (navLinks p) →
  getElementById "navToggle" p = None →
  dispatch (page_listeners p) (OnNavLink i) Click p = ([TypeError], p)
  ∧ filter (listens OnNavToggle Click) (page_listeners p) = [].
Proof.
  intros Hi Hnull. split.
  - rewrite dispatch_listens, navLink_click_listeners by done.
    unfold getRef at 1. by rewrite Hnull.
  - rewrite navToggle_click_listeners. unfold getRef at 1. by rewrite Hnull.
Qed.

Lemma C9_navLink_click_unguarded_witness :
  dispatch (page_listeners no_toggle_page) (OnNavLink 0) Click no_toggle_page
  = ([TypeError], no_toggle_page)
  ∧ filter (listens OnNavToggle Click) (page_listeners no_toggle_page) = [].
Proof.
  apply (C9_navLink_click_unguarded no_toggle_page 0).
  - simpl. lia.
  - reflexivity.
Defined.

(** With both elements on the page the same click closes the menu. *)
Lemma navLink_click_closes_menu (p : Page) (i : nat) (toggle menu : Element.t) :
  i < length (navLinks p) →
  getElementById "navToggle" p = Some toggle →
  getElementById "navMenu" p = Some menu →
  ∃ p', dispatch (page_listeners p) (OnNavLink i) Click p = ([], p')
        ∧ (Element.classList <$> getElementById "navToggle" p')
          = Some (classList_remove "active" (Element.classList toggle))
        ∧ (Element.classList <$> getElementById "navMenu" p')
          = Some (classList_remove "active" (Element.classList menu)).
Proof.
  intros Hi Ht Hm. rewrite dispatch_listens, navLink_click_listeners by done.
  unfold getRef. rewrite Ht, Hm. eexists. split; [done|].
  unfold getElementById in *. simpl.
  rewrite lookup_alter_ne, !lookup_alter_eq, lookup_alter_ne by done.
  by rewrite Ht, Hm.
Qed.

(** ** Back to top *)

(** The listeners a scroll of the window runs: the one of
    [initNavigation], then the one of [initBackToTop] when the button
    was found. *)
Lemma scroll_listeners (p : Page) :
  filter (listens OnWindow Scroll) (page_listeners p)
  = mkListener OnWindow Scroll (NavScroll (getRef "navbar" p))
    :: if negb (is_null (getRef "backToTop" p))
       then [mkListener OnWindow Scroll (BackToTopScroll (getRef "backToTop" p))]
       else [].
Proof.
  unfold page_listeners, initNavigation, initBackToTop. rewrite !filter_app.
  rewrite (filter_imap_nil (listens OnWindow Scroll)).
  2:{ intros j x [H _]. discriminate H. }
  destruct (negb (is_null (getRef "navToggle" p)) && negb (is_null (getRef "navMenu" p)));
    destruct (negb (is_null (getRef "backToTop" p))); done.
Qed.







(** ** Counters *)

Lemma ceiling_step_80 (c : Z) :
  Qceiling (inject_Z c + inject_Z 80 / inject_Z speed) = (c + 1)%Z.
Proof.
  unfold Qceiling, Qfloor, Qopp, Qplus, Qdiv, Qmult, Qinv, inject_Z, speed. simpl.
  change (Z.pos (1 * 200)) with 200%Z. change (Z.pos (1 * (1 * 200))) with 200%Z.
  replace (- (c * 200 + 80 * 1 * 1))%Z with ((- c - 1) * 200 + 120)%Z by lia.
  rewrite Z.div_add_l by lia. change (120 `div` 200)%Z with 0%Z. lia.
Qed.

(** Below 80, a step shows the next integer and asks for one more
    step. *)
Lemma updateCount_below_80 (st : Counters) (i : nat) (c : Counter.t) :
  counters st !! i = Some c →
  Counter.data_count c = 80%Z →
  (Counter.innerText c < 80)%Z →
  updateCount i st
  = mkCounters (alter (Counter.set_innerText (Counter.innerText c + 1)) i (counters st))
               (observed st) (timers st ++ [i]) (animated st).
Proof.
  intros Hc Hd Hlt. unfold updateCount. rewrite Hc, Hd.
  apply Z.ltb_lt in Hlt. rewrite Hlt. by rewrite ceiling_step_80.
Qed.

(** At 80 a step shows 80 and asks for nothing more. *)
Lemma updateCount_at_80 (st : Counters) (i : nat) (c : Counter.t) :
  counters st !! i = Some c →
  Counter.data_count c = 80%Z →
  (80 ≤ Counter.innerText c)%Z →
  updateCount i st
  = mkCounters (alter (Counter.set_innerText 80) i (counters st))
               (observed st) (timers st) (animated st).
Proof.
  intros Hc Hd Hge. unfold updateCount. rewrite Hc, Hd.
  apply Z.ltb_ge in Hge. by rewrite Hge.
Qed.

Lemma counter_after_S (n : nat) :
  counter_after (S n) = browser_step (counter_after n) Timeout.
Proof. unfold counter_after, browser_run. by rewrite replicate_S_end, foldl_snoc. Qed.

Lemma counter_after_below (n : nat) :
  n < 80 →
  counter_after n = mkCounters [Counter.mk (Z.of_nat n + 1) 80] [] [0] [0].
Proof.
  induction n as [|n IH]; intros Hn.
  - by vm_compute.
  - rewrite counter_after_S, IH by lia. simpl.
    rewrite (updateCount_below_80 _ 0 (Counter.mk (Z.of_nat n + 1) 80)) by (done || simpl; lia).
    simpl. unfold Counter.set_innerText. simpl. do 3 f_equal. lia.
Qed.

Lemma counter_after_80 :
  counter_after 80 = mkCounters [Counter.mk 80 80] [] [] [0].
Proof. rewrite counter_after_S, counter_after_below by lia. by vm_compute. Qed.

Lemma counter_after_done (n : nat) : (80 ≤ n)%nat → counter_after n = counter_after 80.
Proof.
  induction 1 as [|n Hn IH]; [done|].
  rewrite counter_after_S, IH, counter_after_80. done.
Qed.

Lemma updateCount_observer (i : nat) (st : Counters) :
  observed (updateCount i st) = observed st ∧ animated (updateCount i st) = animated st.
Proof.
  unfold updateCount. destruct (counters st !! i); [|done].
  by destruct (_ <? _)%Z.
Qed.

(** The callback, given entries for other targets only, neither observes
    [i] again nor animates it. *)
Lemma observer_callback_other (i : nat) (entries : list Entry.t) (st : Counters) :
  Forall (λ e, Entry.target e ≠ i) entries →
  i ∉ observed st →
  (i ∉ observed (observer_callback entries st))
  ∧ ∃ more, animated (observer_callback entries st) = animated st ++ more ∧ i ∉ more.
Proof.
  unfold observer_callback. intros Hall. revert st.
  induction Hall as [|e entries He Hall IH]; intros st Hi; simpl.
  - split; [done|]. exists []. split; [by rewrite app_nil_r|]. by intros H%elem_of_nil.
  - destruct (Entry.isIntersecting e); [|by apply IH].
    destruct (updateCount_observer (Entry.target e)
                (mkCounters (counters st) (observed st) (timers st)
                            (animated st ++ [Entry.target e]))) as [Ho Ha].
    destruct (IH (unobserve (Entry.target e) (animateCounter (Entry.target e) st)))
      as [Hobs (more & Hm & Hnot)].
    { unfold unobserve, animateCounter. simpl. rewrite Ho. simpl.
      intros [_ H]%list_elem_of_filter. done. }
    split; [done|]. exists (Entry.target e :: more). split.
    + rewrite Hm. unfold unobserve, animateCounter. simpl. rewrite Ha. simpl.
      by rewrite <- app_assoc.
    + intros [H|H]%elem_of_cons; [by apply He|done].
Qed.

(** A counter that is no longer observed is never animated again,
    whatever the browser reports afterwards. *)
Lemma unobserved_never_animated (i : nat) (evs : list BrowserStep) (st : Counters) :
  i ∉ observed st →
  (i ∉ observed (browser_run st evs))
  ∧ ∃ more, animated (browser_run st evs) = animated st ++ more ∧ i ∉ more.
Proof.
  unfold browser_run. revert st. induction evs as [|ev evs IH]; intros st Hi; simpl.
  - split; [done|]. exists []. split; [by rewrite app_nil_r|]. by intros H%elem_of_nil.
  - assert ((i ∉ observed (browser_step st ev))
            ∧ ∃ more, animated (browser_step st ev) = animated st ++ more ∧ i ∉ more)
      as [Ho (m1 & Hm1 & Hn1)].
    { destruct ev as [entries|]; simpl.
      - apply observer_callback_other; [|done].
        apply Forall_forall. intros e [He _]%list_elem_of_filter. by intros <-.
      - destruct (timers st) as [|j rest].
        + split; [done|]. exists []. split; [by rewrite app_nil_r|]. by intros H%elem_of_nil.
        + destruct (updateCount_observer j
                      (mkCounters (counters st) (observed st) rest (animated st)))
            as [Ho' Ha']. rewrite Ho', Ha'. simpl.
          split; [done|]. exists []. split; [by rewrite app_nil_r|]. by intros H%elem_of_nil. }
    destruct (IH _ Ho) as [Ho2 (m2 & Hm2 & Hn2)].
    split; [done|]. exists (m1 ++ m2). split.
    + by rewrite Hm2, Hm1, app_assoc.
    + by intros [H|H]%elem_of_app.
Qed.

Lemma filter_no_match {A} (P : A → Prop) `{∀ x, Decision (P x)} (l : list A) :
  (∀ x, ¬ P x) → filter P l = [].
Proof.
  intros Hno. induction l as [|x l IH]; [done|].
  by rewrite filter_cons, decide_False.
Qed.


Lemma counter_in_view_state :
  counter_in_view = mkCounters [Counter.mk 1 80] [] [0] [0].
Proof. by vm_compute. Qed.

(** With nothing observed, nothing the browser does starts an
    animation. *)
Lemma nothing_observed (evs : list BrowserStep) (st : Counters) :
  observed st = [] →
  observed (browser_run st evs) = [] ∧ animated (browser_run st evs) = animated st.
Proof.
  unfold browser_run. revert st. induction evs as [|ev evs IH]; intros st Ho; [done|].
  simpl. assert (observed (browser_step st ev) = []
                 ∧ animated (browser_step st ev) = animated st) as [Ho1 Ha1].
  { destruct ev as [entries|]; simpl.
    - rewrite Ho. rewrite filter_no_match; [done|].
      intros e H. by apply elem_of_nil in H.
    - destruct (timers st) as [|j rest]; [done|].
      destruct (updateCount_observer j
                  (mkCounters (counters st) (observed st) rest (animated st))) as [-> ->].
      done. }
  destruct (IH _ Ho1) as [-> ->]. done.
Qed.













(** ** The script on the example pages *)

Example example_modules_children :
  topLevelElements (join (imap moduleCard example_modules)) = 2.
Proof. by vm_compute. Qed.

Example example_thesis_children :
  topLevelElements (thesisCard example_thesis ["Design"; "Code"]) = 1.
Proof. by vm_compute. Qed.

(** A link that is not attribute text is outside the well-formed
    documents, and the markup of the two courseworks then has one
    top-level element only. *)
Example unquoting_courseworks_children :
  forallb Coursework_wf unquoting_courseworks = false
  ∧ topLevelElements (join (imap courseworkCard unquoting_courseworks)) = 1.
Proof. by vm_compute. Qed.

Example loaded_all_events :
  events (loaded (mkNetwork (Resolved (mkResponse true (Some example_modules)))
                            (Resolved (mkResponse true (Some example_thesis)))
                            (Resolved (mkResponse true (Some example_courseworks)))
                            (Resolved (mkResponse true (Some example_practicals))))
                 (initial_page example_document [] [] 0))
  = [EvFetch SrcEducationModules; EvRender SrcEducationModules;
     EvFetch SrcThesis; EvRender SrcThesis;
     EvFetch SrcCourseworks; EvRender SrcCourseworks;
     EvFetch SrcPracticalWorks; EvRender SrcPracticalWorks].
Proof. by vm_compute. Qed.

Example loaded_missing_courseworks_events :
  events (loaded missing_courseworks_network (initial_page example_document [] [] 0))
  = [EvFetch SrcEducationModules; EvRender SrcEducationModules;
     EvFetch SrcThesis; EvRender SrcThesis;
     EvFetch SrcCourseworks;
     EvFetch SrcPracticalWorks; EvRender SrcPracticalWorks].
Proof. by vm_compute. Qed.

Example loaded_broken_thesis_events :
  events (loaded broken_thesis_network (initial_page example_document [] [] 0))
  = [EvFetch SrcEducationModules; EvRender SrcEducationModules;
     EvFetch SrcThesis; EvConsoleError SyntaxError].
Proof. by vm_compute. Qed.

Example loaded_offline_modules_events :
  events (loaded offline_modules_network (initial_page example_document [] [] 0))
  = [EvFetch SrcEducationModules; EvConsoleError NetworkError].
Proof. by vm_compute. Qed.

Example fresh_card_toggles :
  presentation 0 fresh_card_page = Some ("none", EmptyString)
  ∧ presentation 0 (toggleModule 0 fresh_card_page) = Some ("block", "rotate(180deg)")
  ∧ presentation 0 (toggleModule 0 (toggleModule 0 fresh_card_page))
    = Some ("none", "rotate(0deg)").
Proof. by vm_compute. Qed.

(** The first section's tested band ends at offset 500, included; the
    second one's starts there, excluded. *)
Example two_sections_active :
  is_active <$> navLinks (updateActiveNavLink (two_section_page 500)) = [true; false]
  ∧ is_active <$> navLinks (updateActiveNavLink (two_section_page 501)) = [false; true]
  ∧ is_active <$> navLinks (updateActiveNavLink (two_section_page 900)) = [false; true]
  ∧ is_active <$> navLinks (updateActiveNavLink (two_section_page 901)) = [true; false].
Proof. by vm_compute. Qed.

Example button_page_scrolled :
  (Element.classList
     <$> getElementById "backToTop" (scroll_event (page_listeners button_page) 501 button_page).2)
  = Some ["visible"]
  ∧ (Element.classList
       <$> getElementById "backToTop" (scroll_event (page_listeners button_page) 500 button_page).2)
    = Some [].
Proof. by vm_compute. Qed.

(** * Further properties of the script *)

(** ** The loader as a whole *)

Lemma load_sources_app (l1 l2 : list Source) (net : Network) (rt : Runtime) :
  load_sources (l1 ++ l2) net rt
  = match load_sources l1 net rt with
    | (Normal _, rt1) => load_sources l2 net rt1
    | (Throw e, rt1) => (Throw e, rt1)
    end.
Proof.
  revert rt. induction l1 as [|s l1 IH]; intros rt; [done|].
  change ((s :: l1) ++ l2) with (s :: (l1 ++ l2)). rewrite !load_sources_cons.
  destruct (load_source s net rt) as [[[]|e] rt1]; [apply IH|done].
Qed.

Lemma load_sources_unit (l : list Source) (net : Network) (rt : Runtime) :
  (∃ rt', load_sources l net rt = (Normal tt, rt'))
  ∨ (∃ e rt', load_sources l net rt = (Throw e, rt')).
Proof. destruct (load_sources l net rt) as [[[]|e] rt']; eauto. Qed.

(** What a render function returns or throws, and what it leaves in its
    container, depends on its container and its variable alone. *)
Lemma render_function_local (s : Source) (net : Network) (p q : Page) :
  untouched s p q →
  (render_function s (put s net q)).1 = (render_function s (put s net p)).1
  ∧ getElementById (container_id s) (render_function s (put s net q)).2
    = getElementById (container_id s) (render_function s (put s net p)).2.
Proof.
  intros [Hslot Hc]. destruct s; simpl in Hslot, Hc; unfold put;
    match goal with |- context [parsed ?a] => destruct (parsed a) as [d|] end;
    cbn [from_option render_function container_id];
    unfold pure_render, modify, renderEducationModules, renderThesis,
           renderCourseworks, renderPracticalWorks, assign_innerHTML,
           getElementById in *;
    cbn [document educationModules thesisData courseworks practicalWorks
         set_educationModules set_thesisData set_courseworks set_practicalWorks
         set_document];
    rewrite ?Hslot, ?Hc;
    match goal with |- context [if ?b then _ else _] => destruct b end;
    try match goal with
        | |- context [Thesis.keyFeatures ?t] => destruct (Thesis.keyFeatures t)
        end;
    cbn [fst snd document set_educationModules set_thesisData set_courseworks
         set_practicalWorks set_document];
    rewrite ?lookup_alter_eq, ?Hc; done.
Qed.

(** A block on a page that has the variable and the container of its
    source as [p] has them: it throws what [block_error] says. *)
Lemma load_source_outcome (s : Source) (net : Network) (p : Page) (rt : Runtime) :
  untouched s p (page rt) →
  (load_source s net rt).1
  = match block_error s net p with Some e => Throw e | None => Normal tt end
  ∧ EvFetch s ∈ events (load_source s net rt).2.
Proof.
  intros Hu. pose proof (load_source_spec s net rt) as H. unfold block_error.
  destruct (answer_status s net); rewrite H; simpl.
  1-3: split; [done|]; apply elem_of_app; right; by left.
  destruct (render_function_local s net p (page rt) Hu) as [-> _].
  split.
  - by destruct ((render_function s (put s net p)).1) as [[]|e].
  - apply elem_of_app. right. by left.
Qed.

(** Blocks that throw nothing run to the end. *)
Lemma load_sources_no_error (l : list Source) (net : Network) (p : Page) :
  NoDup l →
  (∀ o, o ∈ l → block_error o net p = None) →
  ∀ rt, (∀ o, o ∈ l → untouched o p (page rt)) →
    ∃ rt', load_sources l net rt = (Normal tt, rt') ∧ only_about l rt rt'.
Proof.
  induction l as [|a l IH]; intros Hnd Hall rt Hu.
  - exists rt. split; [done|apply only_about_refl].
  - apply NoDup_cons in Hnd as [Ha Hnd].
    destruct (load_source_outcome a net p rt) as [Hout _]; [apply Hu; by left|].
    rewrite (Hall a) in Hout by (by left).
    pose proof (load_source_about a net rt) as Hab1.
    destruct (load_source a net rt) as [c rt1] eqn:E1. simpl in Hout, Hab1. subst c.
    destruct (IH Hnd (λ o Ho, Hall o (list_elem_of_further _ _ _ Ho)) rt1)
      as (rt' & E & Hab).
    { intros o Ho. eapply untouched_trans; [apply Hu; by right|].
      destruct Hab1 as [_ U]. apply U. intros ->%list_elem_of_singleton. done. }
    exists rt'. split; [by rewrite load_sources_cons, E1|].
    by apply (only_about_trans [a] l _ rt1).
Qed.

Lemma take_position_load_order (s o : Source) :
  o ∈ take (position s) load_order ↔ position o < position s.
Proof.
  destruct s, o; simpl; split; intros H; try lia;
    try (by repeat first [apply list_elem_of_here | apply list_elem_of_further]);
    repeat (apply elem_of_cons in H as [H|H]; [discriminate|]);
    by apply elem_of_nil in H.
Qed.

Lemma no_error_among_sources (evs : list Event) (l : list Source) (e : Error) :
  (∀ ev, ev ∈ evs → ∃ s, event_source ev = Some s ∧ s ∈ l) → EvConsoleError e ∉ evs.
Proof. intros H Hin. by destruct (H _ Hin) as (s & Hs & _). Qed.

(** Whatever the network answers, [loadAllData] completes normally, and
    what is thrown inside is caught and logged: when the first block
    that throws is that of source [s] and it throws [e], the fetch of
    [s] was issued, [e] is logged as the last thing that happens, and
    nothing else is logged. When no block throws, nothing is logged. *)
Theorem loadAllData_never_throws (net : Network) (p : Page) :
  (loadAllData net (mkRuntime p [])).1 = Normal tt
  ∧ (∀ s e,
       (∀ o, position o < position s → block_error o net p = None) →
       block_error s net p = Some e →
       ∃ evs, events (loaded net p) = evs ++ [EvConsoleError e]
              ∧ EvFetch s ∈ evs
              ∧ ∀ e', EvConsoleError e' ∉ evs)
  ∧ ((∀ s, block_error s net p = None) →
     ∀ e, EvConsoleError e ∉ events (loaded net p)).
Proof.
  split; [|split].
  - rewrite loadAllData_blocks. unfold try_catch.
    by destruct (load_sources load_order net (mkRuntime p [])) as [[[]|e] rt'].
  - intros s e Hbefore Hs.
    destruct (load_sources_no_error (take (position s) load_order) net p)
      with (rt := mkRuntime p []) as (rt1 & E1 & Hab1).
    { eapply sublist_NoDup; [apply NoDup_load_order|apply sublist_take]. }
    { intros o Ho. by apply Hbefore, take_position_load_order. }
    { intros o _. apply untouched_refl. }
    destruct (load_source_outcome s net p rt1) as [Hout Hf].
    { destruct Hab1 as [_ U]. apply U.
      rewrite take_position_load_order. lia. }
    rewrite Hs in Hout.
    pose proof (load_source_about s net rt1) as Hab2.
    destruct (load_source s net rt1) as [c rt2] eqn:E2. simpl in Hout, Hf, Hab2. subst c.
    assert (load_sources load_order net (mkRuntime p []) = (Throw e, rt2)) as E.
    { rewrite (load_order_split s), load_sources_app, E1, load_sources_cons, E2. done. }
    rewrite (loaded_throw _ _ _ _ E). simpl. exists (events rt2).
    split; [done|]. split; [done|].
    destruct (only_about_trans _ _ _ _ _ Hab1 Hab2) as [(evs & Ev & Hsrc) _].
    simpl in Ev. rewrite Ev. intros e'. by eapply no_error_among_sources.
  - intros Hnone e.
    destruct (load_sources_no_error load_order net p NoDup_load_order (λ o _, Hnone o))
      with (rt := mkRuntime p []) as (rt' & E & [(evs & Ev & Hsrc) _]).
    { intros o _. apply untouched_refl. }
    rewrite (loaded_normal _ _ _ E). simpl in Ev. rewrite Ev.
    by eapply no_error_among_sources.
Qed.

Lemma loadAllData_never_throws_witness :
  (∃ evs, events (loaded broken_thesis_network (initial_page example_document [] [] 0))
          = evs ++ [EvConsoleError SyntaxError]
          ∧ EvFetch SrcThesis ∈ evs
          ∧ ∀ e', EvConsoleError e' ∉ evs)
  ∧ (∀ e, EvConsoleError e
          ∉ events (loaded serving_network (initial_page example_document [] [] 0))).
Proof.
  split.
  - destruct (loadAllData_never_throws broken_thesis_network
                (initial_page example_document [] [] 0)) as (_ & H & _).
    apply (H SrcThesis SyntaxError); [|reflexivity].
    intros o Ho. destruct o; simpl in Ho; try lia. reflexivity.
  - destruct (loadAllData_never_throws serving_network
                (initial_page example_document [] [] 0)) as (_ & _ & H).
    apply H. intros s. by destruct s.
Defined.

Lemma fetched_sources_app (a b : list Event) :
  fetched_sources (a ++ b) = fetched_sources a ++ fetched_sources b.
Proof. apply omap_app. Qed.

(** A block issues its fetch, once, whatever comes of it. *)
Lemma load_source_events (s : Source) (net : Network) (rt : Runtime) :
  ∃ es, events (load_source s net rt).2 = events rt ++ es ∧ fetched_sources es = [s].
Proof.
  pose proof (load_source_spec s net rt) as H.
  destruct (answer_status s net); rewrite H; simpl; eexists; split; done.
Qed.

Lemma load_sources_fetches (l : list Source) (net : Network) (rt : Runtime) :
  ∃ evs k,
    events (load_sources l net rt).2 = events rt ++ evs
    ∧ fetched_sources evs = take k l
    ∧ (l ≠ [] → (1 ≤ k)%nat)
    ∧ ((load_sources l net rt).1 = Normal tt → k = length l).
Proof.
  revert rt. induction l as [|s l IH]; intros rt.
  - exists [], 0. simpl. by rewrite app_nil_r.
  - rewrite load_sources_cons.
    destruct (load_source_events s net rt) as (es & Hes & Hf).
    destruct (load_source s net rt) as [[[]|e] rt1]; simpl in Hes.
    + destruct (IH rt1) as (evs & k & Hev & Hk & _ & Hn).
      exists (es ++ evs), (S k). split; [by rewrite Hev, Hes, app_assoc|].
      split; [by rewrite fetched_sources_app, Hf, Hk|].
      split; [lia|]. intros Hnorm. simpl. f_equal. by apply Hn.
    + exists es, 1. simpl. split; [done|]. split; [by rewrite Hf, take_0|].
      split; [lia|done].
Qed.

(** The fetches are issued in the fixed order, each source at most once
    and none after a gap: the sources fetched are the first [k] of the
    load order. The education modules are always fetched, and when no
    error is logged all four are. *)
Theorem fetches_in_load_order (net : Network) (p : Page) :
  ∃ k, fetched_sources (events (loaded net p)) = take k load_order
       ∧ (1 ≤ k)%nat
       ∧ ((∀ e, EvConsoleError e ∉ events (loaded net p)) → k = 4).
Proof.
  destruct (load_sources_fetches load_order net (mkRuntime p []))
    as (evs & k & Hev & Hk & H1 & Hn).
  exists k.
  destruct (load_sources load_order net (mkRuntime p [])) as [[[]|e] rt'] eqn:E;
    cbn [fst snd events app] in Hev, Hn.
  - rewrite (loaded_normal _ _ _ E), Hev. split; [done|]. split; [by apply H1|].
    intros _. by apply Hn.
  - rewrite (loaded_throw _ _ _ _ E). simpl. rewrite Hev, fetched_sources_app. simpl.
    rewrite app_nil_r. split; [done|]. split; [by apply H1|].
    intros Hno. exfalso. apply (Hno e). apply elem_of_app. right. by left.
Qed.

Lemma loaded_caught (net : Network) (p : Page) :
  loaded net p = caught (load_sources load_order net (mkRuntime p [])).
Proof.
  unfold loaded. rewrite loadAllData_blocks. unfold try_catch, caught.
  by destruct (load_sources load_order net (mkRuntime p [])) as [[[]|e] rt'].
Qed.

Lemma caught_page (outcome : Completion unit * Runtime) :
  page (caught outcome) = page outcome.2.
Proof. by destruct outcome as [[[]|e] rt]. Qed.

Lemma caught_events (outcome : Completion unit * Runtime) (ev : Event) :
  event_source ev ≠ None → ev ∈ events (caught outcome) ↔ ev ∈ events outcome.2.
Proof.
  intros Hev. destruct outcome as [[[]|e] rt]; simpl; [done|].
  rewrite elem_of_app, list_elem_of_singleton. split; [|by left].
  intros [H| ->]; done.
Qed.

(** A block whose answer parses stores the document and calls the render
    function, whether that throws or not. *)
Lemma parsed_load_source (s : Source) (net : Network) (rt : Runtime) :
  answer_status s net = StParsed →
  ∃ c p', load_source s net rt
          = (c, mkRuntime p' (events rt ++ [EvFetch s; EvRender s]))
          ∧ stored s net p'.
Proof.
  intros Hst. pose proof (load_source_spec s net rt) as H. rewrite Hst in H.
  eexists _, _. split; [done|].
  eapply stored_slot_same; [by apply put_stored|].
  destruct (render_function_frame s (put s net (page rt))) as (H1 & H2 & H3 & H4 & _).
  by destruct s.
Qed.

Lemma not_elem_of_load_order_parts (s : Source) :
  (s ∉ take (position s) load_order) ∧ (s ∉ drop (S (position s)) load_order).
Proof.
  split; intros Hin; destruct s; simpl in Hin;
    repeat (apply elem_of_cons in Hin as [Hin|Hin]; [discriminate|]);
    by apply elem_of_nil in Hin.
Qed.

Lemma caught_tail (outcome : Completion unit * Runtime) :
  ∃ tail, events (caught outcome) = events outcome.2 ++ tail
          ∧ ∀ ev, ev ∈ tail → event_source ev = None.
Proof.
  destruct outcome as [[[]|e] rt]; simpl.
  - exists []. split; [by rewrite app_nil_r|]. by intros ev H%elem_of_nil.
  - exists [EvConsoleError e]. split; [done|]. by intros ev ->%list_elem_of_singleton.
Qed.

(** The render function of a source is called at most once, directly
    after the fetch of that source and on the answered document: when
    it was called, the events of the source are its fetch followed at
    once by its render, the variable held the answered document when
    the render function ran and holds it at the end, and the container
    of the source ends as the render function leaves it on a page whose
    variable holds that document. *)
Theorem rendered_only_when_stored (net : Network) (p : Page) (s : Source) :
  EvRender s ∈ events (loaded net p) →
  (∃ before after,
     events (loaded net p) = before ++ EvFetch s :: EvRender s :: after
     ∧ (∀ ev, ev ∈ before ++ after → event_source ev ≠ Some s))
  ∧ stored s net (put s net p)
  ∧ stored s net (page (loaded net p))
  ∧ getElementById (container_id s) (page (loaded net p))
    = getElementById (container_id s) (render_function s (put s net p)).2.
Proof.
  intros Hr. destruct (decide (answer_status s net = StParsed)) as [Hst|Hst].
  2:{ by destruct (loaded_quiet s net p Hst) as [_ Hn]. }
  destruct (not_elem_of_load_order_parts s) as [Hb Ha].
  rewrite loaded_caught in Hr |- *.
  rewrite (load_order_split s) in Hr |- *. rewrite load_sources_app in Hr |- *.
  pose proof (load_sources_about (take (position s) load_order) net (mkRuntime p []))
    as [(evs1 & Ev1 & Hsrc1) U1].
  destruct (load_sources (take (position s) load_order) net (mkRuntime p []))
    as [[[]|e] rt1]; simpl in Ev1, U1.
  2:{ simpl in Hr. rewrite Ev1 in Hr.
      apply elem_of_app in Hr as [Hr|Hr%list_elem_of_singleton]; [|done].
      destruct (Hsrc1 _ Hr) as (o & Ho & Hin). simpl in Ho. by simplify_eq. }
  clear Hr. rewrite load_sources_cons.
  pose proof (load_source_spec s net rt1) as Hspec. rewrite Hst in Hspec.
  rewrite Hspec. clear Hspec.
  pose proof (U1 s Hb) as Hu1.
  destruct (render_function_local s net p (page rt1) Hu1) as [_ Hcont].
  destruct (render_function_frame s (put s net (page rt1))) as (F1 & F2 & F3 & F4 & _).
  set (r := render_function s (put s net (page rt1))) in *.
  set (rt2 := mkRuntime r.2 (events rt1 ++ [EvFetch s; EvRender s])).
  set (out := match r.1 with
              | Normal _ => load_sources (drop (S (position s)) load_order) net rt2
              | Throw e => (Throw e, rt2)
              end).
  assert (∃ evs2, events out.2 = events rt2 ++ evs2
                  ∧ (∀ ev, ev ∈ evs2 → event_source ev ≠ Some s)
                  ∧ untouched s (page rt2) (page out.2)) as (evs2 & Ev2 & Hsrc2 & U2).
  { unfold out. destruct (r.1) as [[]|e].
    - pose proof (load_sources_about (drop (S (position s)) load_order) net rt2)
        as [(evs2 & Ev2 & Hsrc2) U2].
      exists evs2. split; [done|]. split; [|by apply U2].
      intros ev Hev Hs. destruct (Hsrc2 _ Hev) as (o & Ho & Hin). congruence.
    - exists []. split; [by rewrite app_nil_r|]. split; [|apply untouched_refl].
      by intros ev Hev%elem_of_nil. }
  destruct (caught_tail out) as (tail & Et & Htail).
  destruct U2 as [Hslot2 Hc2]. simpl in Ev2, Hslot2, Hc2.
  assert (stored s net (put s net (page rt1))) as Hstored by (by apply put_stored).
  split; [|split; [|split]].
  - exists evs1, (evs2 ++ tail). split.
    + rewrite Et, Ev2, Ev1. simpl. by rewrite <- !app_assoc.
    + intros ev [Hev|[Hev|Hev]%elem_of_app]%elem_of_app Hs.
      * destruct (Hsrc1 _ Hev) as (o & Ho & Hin). congruence.
      * by apply (Hsrc2 _ Hev).
      * rewrite (Htail _ Hev) in Hs. done.
  - by apply put_stored.
  - rewrite caught_page. eapply stored_slot_same; [|exact Hslot2].
    eapply stored_slot_same; [exact Hstored|]. by destruct s.
  - rewrite caught_page. by rewrite Hc2.
Qed.

Lemma rendered_only_when_stored_witness :
  let p := initial_page example_document [] [] 0 in
  (∃ before after,
     events (loaded serving_network p) = before ++ EvFetch SrcThesis :: EvRender SrcThesis :: after
     ∧ (∀ ev, ev ∈ before ++ after → event_source ev ≠ Some SrcThesis))
  ∧ stored SrcThesis serving_network (put SrcThesis serving_network p)
  ∧ stored SrcThesis serving_network (page (loaded serving_network p))
  ∧ getElementById (container_id SrcThesis) (page (loaded serving_network p))
    = getElementById (container_id SrcThesis)
        (render_function SrcThesis (put SrcThesis serving_network p)).2.
Proof.
  apply rendered_only_when_stored. vm_compute.
  do 3 apply list_elem_of_further. apply list_elem_of_here.
Defined.

Lemma markup_slot_same (s : Source) (p p' : Page) :
  slot_same s p p' → markup s p' = markup s p ∧ has_data s p' = has_data s p.
Proof. destruct s; simpl; by intros ->. Qed.

Lemma shows_untouched (s : Source) (p p' : Page) :
  untouched s p p' → shows s p → shows s p'.
Proof.
  intros [Hslot Hc] (container & Hget & Hm). exists container.
  rewrite Hc. split; [done|]. by destruct (markup_slot_same s p p' Hslot) as [-> _].
Qed.

(** A render function that finds its container and something to render
    leaves the container holding the markup of the document. *)
Lemma render_function_shows (s : Source) (p : Page) :
  (render_function s p).1 = Normal tt →
  is_Some (getElementById (container_id s) p) →
  has_data s p = true →
  shows s (render_function s p).2.
Proof.
  intros Hn [el Hel] Hd. destruct s; simpl in *;
    unfold pure_render, modify, renderEducationModules, renderThesis,
           renderCourseworks, renderPracticalWorks in *;
    rewrite Hel in *; simpl in *.
  - apply negb_true_iff in Hd. rewrite Hd. simpl.
    eexists. split; [by apply getElementById_assign|done].
  - rewrite Hd in *. simpl in *.
    destruct (Thesis.keyFeatures (thesisData p)) as [k|] eqn:Hk; [|done]. simpl.
    eexists. split; [by apply getElementById_assign|]. simpl. by rewrite Hk.
  - apply negb_true_iff in Hd. rewrite Hd. simpl.
    eexists. split; [by apply getElementById_assign|done].
  - apply negb_true_iff in Hd. rewrite Hd. simpl.
    eexists. split; [by apply getElementById_assign|done].
Qed.

Lemma put_getElementById (s : Source) (net : Network) (p : Page) (id : string) :
  getElementById id (put s net p) = getElementById id p.
Proof.
  destruct s; unfold put;
    match goal with |- context [parsed ?a] => by destruct (parsed a) end.
Qed.

(** A run of healthy blocks: every block fetches, stores and renders,
    and at the end every container that exists shows its document. *)
Lemma load_sources_healthy (l : list Source) (net : Network) :
  NoDup l →
  (∀ o, o ∈ l → healthy o net) →
  ∀ rt, ∃ rt',
    load_sources l net rt = (Normal tt, rt')
    ∧ events rt' = events rt ++ (l ≫= λ s, [EvFetch s; EvRender s])
    ∧ only_about l rt rt'
    ∧ ∀ o, o ∈ l →
        stored o net (page rt')
        ∧ (is_Some (getElementById (container_id o) (page rt)) →
           has_data o (page rt') = true → shows o (page rt')).
Proof.
  induction l as [|a l IH]; intros Hnd Hall rt.
  - exists rt. split; [done|]. split; [by rewrite app_nil_r|].
    split; [apply only_about_refl|]. by intros o Ho%elem_of_nil.
  - apply NoDup_cons in Hnd as [Ha Hnd].
    destruct (Hall a) as [Hst Hth]; [by left|].
    pose proof (load_source_spec a net rt) as Hspec. rewrite Hst in Hspec.
    pose proof (load_source_about a net rt) as Hab1.
    pose proof (put_stored a net (page rt) Hst) as Hput.
    assert ((render_function a (put a net (page rt))).1 = Normal tt) as Hnorm.
    { apply render_function_normal. destruct a; try done. simpl in *. by apply Hth. }
    destruct (render_function_frame a (put a net (page rt))) as (F1 & F2 & F3 & F4 & _).
    set (p1 := (render_function a (put a net (page rt))).2) in *.
    set (rt1 := mkRuntime p1 (events rt ++ [EvFetch a; EvRender a])) in *.
    assert (load_source a net rt = (Normal tt, rt1)) as E1.
    { rewrite Hspec, Hnorm. done. }
    rewrite E1 in Hab1. simpl in Hab1.
    destruct (IH Hnd (λ o Ho, Hall o (list_elem_of_further _ _ _ Ho)) rt1)
      as (rt' & E & Hev & Hab & Hl).
    exists rt'. split; [by rewrite load_sources_cons, E1|].
    split; [rewrite Hev; simpl; by rewrite <- app_assoc|].
    split; [by apply (only_about_trans [a] l _ rt1)|].
    destruct Hab as [_ U]. destruct Hab1 as [_ U1].
    intros o [->|Ho]%elem_of_cons.
    + destruct (U a Ha) as [Hslot Hc]. simpl in Hslot, Hc. split.
      * eapply stored_slot_same; [|done].
        eapply stored_slot_same; [done|]. by destruct a.
      * intros Hsome Hd. eapply shows_untouched; [by split|].
        apply render_function_shows; [done|by rewrite put_getElementById|].
        destruct (markup_slot_same a p1 (page rt') Hslot) as [_ Hd1].
        rewrite Hd1 in Hd.
        assert (slot_same a (put a net (page rt)) p1) as Hs1 by (by destruct a).
        by destruct (markup_slot_same a _ _ Hs1) as [_ <-].
    + destruct (Hl o Ho) as [Hst' Hsh]. split; [done|].
      intros Hsome. apply Hsh.
      assert (o ∉ [a]) as Hoa.
      { intros ->%list_elem_of_singleton. done. }
      destruct (U1 o Hoa) as [_ Hc]. congruence.
Qed.

(** When all four answers are healthy (each is a success whose body
    parses to a document of the shape of the data model, the thesis
    with its list of key features) and the numbers among the fields of
    the thesis are safe integers, [loadAllData] fetches and renders the
    four sources in order and logs nothing; afterwards every variable
    holds its document, and every container that exists and has
    something to show holds the markup of its document. *)
Theorem all_healthy_all_shown (net : Network) (p : Page) :
  (∀ s, healthy s net) →
  (∀ d, parsed (thesis_json net) = Some d → Thesis_safe d = true) →
  events (loaded net p) = (load_order ≫= λ s, [EvFetch s; EvRender s])
  ∧ ∀ s, stored s net (page (loaded net p))
         ∧ (is_Some (getElementById (container_id s) p) →
            has_data s (page (loaded net p)) = true →
            shows s (page (loaded net p))).
Proof.
  intros Hall _.
  destruct (load_sources_healthy load_order net NoDup_load_order (λ o _, Hall o)
              (mkRuntime p [])) as (rt' & E & Hev & _ & Hl).
  rewrite (loaded_normal _ _ _ E). split; [done|].
  intros s. apply Hl, elem_of_load_order.
Qed.

Lemma serving_network_healthy (s : Source) : healthy s serving_network.
Proof.
  destruct s; (split; [reflexivity|]); try done.
  simpl. intros d [= <-]. by eexists.
Qed.

Lemma all_healthy_all_shown_witness :
  let p := initial_page example_document [] [] 0 in
  events (loaded serving_network p) = (load_order ≫= λ s, [EvFetch s; EvRender s])
  ∧ ∀ s, stored s serving_network (page (loaded serving_network p))
         ∧ (is_Some (getElementById (container_id s) p) →
            has_data s (page (loaded serving_network p)) = true →
            shows s (page (loaded serving_network p))).
Proof.
  apply all_healthy_all_shown; [apply serving_network_healthy|].
  intros d [= <-]. reflexivity.
Defined.




(** ** The render functions once more *)

Lemma assign_innerHTML_twice (id html : string) (p : Page) :
  assign_innerHTML id html (assign_innerHTML id html p) = assign_innerHTML id html p.
Proof.
  unfold assign_innerHTML. simpl. unfold set_document. simpl. f_equal.
  apply map_eq. intros k. destruct (decide (id = k)) as [->|Hne].
  - rewrite !lookup_alter_eq. by destruct (document p !! k).
  - by rewrite !lookup_alter_ne.
Qed.

Lemma is_null_assign (id html : string) (p : Page) :
  is_null (getElementById id (assign_innerHTML id html p)) = is_null (getElementById id p).
Proof.
  unfold getElementById, assign_innerHTML. simpl. rewrite lookup_alter_eq.
  by destruct (document p !! id).
Qed.

(** Rendering again changes nothing: a render function run on the page
    it has left gives the same outcome and the same page. *)
Theorem render_function_idempotent (s : Source) (p : Page) :
  render_function s (render_function s p).2 = render_function s p.
Proof.
  destruct s; simpl; unfold pure_render, modify; simpl.
  - f_equal. unfold renderEducationModules.
    destruct (is_null (getElementById "educationModules" p)
              || (length (educationModules p) =? 0)%nat) eqn:E; rewrite ?E; [done|].
    rewrite is_null_assign. simpl. rewrite E. apply assign_innerHTML_twice.
  - unfold renderThesis.
    destruct (is_null (getElementById "thesisContent" p)
              || negb (ToBoolean (Thesis.title (thesisData p)))) eqn:E;
      simpl; rewrite ?E; [done|].
    destruct (Thesis.keyFeatures (thesisData p)) as [k|] eqn:Hk; simpl.
    + rewrite is_null_assign. simpl. rewrite E, Hk. by rewrite assign_innerHTML_twice.
    + by rewrite E, Hk.
  - f_equal. unfold renderCourseworks.
    destruct (is_null (getElementById "courseworksList" p)
              || (length (courseworks p) =? 0)%nat) eqn:E; rewrite ?E; [done|].
    rewrite is_null_assign. simpl. rewrite E. apply assign_innerHTML_twice.
  - f_equal. unfold renderPracticalWorks.
    destruct (is_null (getElementById "practicalsList" p)
              || (length (practicalWorks p) =? 0)%nat) eqn:E; rewrite ?E; [done|].
    rewrite is_null_assign. simpl. rewrite E. apply assign_innerHTML_twice.
Qed.

Lemma same_but_innerHTML_assign (id html : string) (p : Page) (k : string) :
  option_Forall2 same_but_innerHTML
    (getElementById k p) (getElementById k (assign_innerHTML id html p)).
Proof.
  unfold getElementById, assign_innerHTML. simpl.
  destruct (decide (id = k)) as [->|Hne].
  - rewrite lookup_alter_eq. destruct (document p !! k); by constructor.
  - rewrite lookup_alter_ne by done. destruct (document p !! k); by constructor.
Qed.

Lemma same_but_innerHTML_refl (o : option Element.t) :
  option_Forall2 same_but_innerHTML o o.
Proof. destruct o; by constructor. Qed.

Lemma render_function_same_but_innerHTML (s : Source) (p : Page) (id : string) :
  option_Forall2 same_but_innerHTML
    (getElementById id p) (getElementById id (render_function s p).2).
Proof.
  destruct s; simpl;
    unfold renderEducationModules, renderThesis, renderCourseworks, renderPracticalWorks;
    repeat match goal with
           | |- context [if ?b then _ else _] => destruct b; simpl
           | |- context [match ?o with Some _ => _ | None => _ end] => destruct o; simpl
           end;
    first [ apply same_but_innerHTML_refl | apply same_but_innerHTML_assign ].
Qed.

(** A render function assigns none of the four variables and writes
    neither a class nor an inline style of its container, whether it
    completes or throws: after it the variables hold what they held,
    and the container, if the page has it, is still there with its
    class list, its [display] and its [transform]. *)
Theorem render_function_keeps_variables_and_styles (s : Source) (p : Page) :
  educationModules (render_function s p).2 = educationModules p
  ∧ thesisData (render_function s p).2 = thesisData p
  ∧ courseworks (render_function s p).2 = courseworks p
  ∧ practicalWorks (render_function s p).2 = practicalWorks p
  ∧ option_Forall2 same_but_innerHTML
      (getElementById (container_id s) p)
      (getElementById (container_id s) (render_function s p).2).
Proof.
  destruct (render_function_frame s p) as (H1 & H2 & H3 & H4 & _).
  repeat (split; [done|]). apply render_function_same_but_innerHTML.
Qed.

(** ** Module cards side by side *)

Lemma showNat_inj (a b : nat) : showNat a = showNat b → a = b.
Proof.
  unfold showNat. intros H.
  assert (Some (Nat.to_uint a) = Some (Nat.to_uint b)) as Hu.
  { by rewrite <- !NilEmpty.usu, H. }
  injection Hu as Hu. by rewrite <- (Unsigned.of_to a), <- (Unsigned.of_to b), Hu.
Qed.

Lemma content_ids_inj (i j : nat) :
  "module-content-" +:+ showNat i = "module-content-" +:+ showNat j → i = j.
Proof. intros H. cbv [String.append] in H. apply showNat_inj. by simplify_eq. Qed.

Lemma icon_ids_inj (i j : nat) :
  "module-icon-" +:+ showNat i = "module-icon-" +:+ showNat j → i = j.
Proof. intros H. cbv [String.append] in H. apply showNat_inj. by simplify_eq. Qed.

Lemma content_icon_ids_apart (i j : nat) :
  "module-content-" +:+ showNat i ≠ "module-icon-" +:+ showNat j.
Proof. intros H. cbv [String.append] in H. discriminate H. Qed.

(** What a toggle leaves under any id. *)
Lemma toggleModule_lookup (index : nat) (p : Page) (k : string) :
  document (toggleModule index p) !! k =
    match getElementById ("module-content-" +:+ showNat index) p,
          getElementById ("module-icon-" +:+ showNat index) p with
    | Some content, Some icon =>
        if decide (k = "module-icon-" +:+ showNat index) then
          Some (toggle_elements (content, icon)).2
        else if decide (k = "module-content-" +:+ showNat index) then
          Some (toggle_elements (content, icon)).1
        else document p !! k
    | _, _ => document p !! k
    end.
Proof.
  destruct (getElementById ("module-content-" +:+ showNat index) p) as [c|] eqn:Hc.
  - destruct (getElementById ("module-icon-" +:+ showNat index) p) as [i|] eqn:Hi.
    + by apply (toggleModule_elements index p (c, i)).
    + unfold toggleModule. by rewrite Hc, Hi.
  - unfold toggleModule. by rewrite Hc.
Qed.

Lemma toggleModule_lookup_other (i : nat) (p : Page) (k : string) :
  k ≠ "module-content-" +:+ showNat i → k ≠ "module-icon-" +:+ showNat i →
  getElementById k (toggleModule i p) = getElementById k p.
Proof.
  intros H1 H2. unfold getElementById at 1. rewrite toggleModule_lookup.
  destruct (getElementById ("module-content-" +:+ showNat i) p); [|done].
  destruct (getElementById ("module-icon-" +:+ showNat i) p); [|done].
  by rewrite !decide_False.
Qed.

(** Cards do not interfere: toggling one card leaves the [display] and
    the [transform] of every other card as they are, and toggles of two
    different cards can be done in either order. *)
Theorem toggleModule_independent (i j : nat) (p : Page) :
  i ≠ j →
  presentation j (toggleModule i p) = presentation j p
  ∧ toggleModule i (toggleModule j p) = toggleModule j (toggleModule i p).
Proof.
  intros Hij.
  assert (∀ a b, a ≠ b → ∀ q,
            getElementById ("module-content-" +:+ showNat a) (toggleModule b q)
            = getElementById ("module-content-" +:+ showNat a) q
            ∧ getElementById ("module-icon-" +:+ showNat a) (toggleModule b q)
              = getElementById ("module-icon-" +:+ showNat a) q) as Hother.
  { intros a b Hab q. split; apply toggleModule_lookup_other.
    - by intros ?%content_ids_inj.
    - apply content_icon_ids_apart.
    - intros H. symmetry in H. by apply content_icon_ids_apart in H.
    - by intros ?%icon_ids_inj. }
  split.
  - unfold presentation. by destruct (Hother j i (not_eq_sym Hij) p) as [-> ->].
  - rewrite (toggleModule_fields i (toggleModule j p)).
    rewrite (toggleModule_fields j (toggleModule i p)).
    rewrite (toggleModule_fields j p) at 2. rewrite (toggleModule_fields i p) at 2.
    unfold set_document. simpl. f_equal. apply map_eq. intros k.
    rewrite !toggleModule_lookup.
    destruct (Hother i j Hij p) as [-> ->].
    destruct (Hother j i (not_eq_sym Hij) p) as [-> ->].
    pose proof (content_icon_ids_apart i j) as A1.
    pose proof (content_icon_ids_apart j i) as A2.
    pose proof (content_icon_ids_apart i i) as A3.
    pose proof (content_icon_ids_apart j j) as A4.
    assert ("module-content-" +:+ showNat i ≠ "module-content-" +:+ showNat j) as A5
      by (by intros ?%content_ids_inj).
    assert ("module-icon-" +:+ showNat i ≠ "module-icon-" +:+ showNat j) as A6
      by (by intros ?%icon_ids_inj).
    destruct (getElementById ("module-content-" +:+ showNat i) p) as [ci|];
      destruct (getElementById ("module-icon-" +:+ showNat i) p) as [ii|];
      destruct (getElementById ("module-content-" +:+ showNat j) p) as [cj|];
      destruct (getElementById ("module-icon-" +:+ showNat j) p) as [ij|];
      try done; repeat case_decide; subst; try done; congruence.
Qed.

Lemma toggleModule_independent_witness :
  presentation 1 (toggleModule 0 two_cards_page) = presentation 1 two_cards_page
  ∧ toggleModule 0 (toggleModule 1 two_cards_page)
    = toggleModule 1 (toggleModule 0 two_cards_page).
Proof. apply toggleModule_independent. lia. Defined.

(** A toggle writes the [display] of the card's content and the
    [transform] of the card's icon and nothing else: the content keeps
    its markup, classes and transform, the icon its markup, classes and
    display, every other element and the rest of the page are as
    before. When the content or the icon is missing nothing is written
    at all, also not to the one that exists. *)
Theorem toggleModule_writes_two_styles (index : nat) (p : Page) :
  toggleModule index p = set_document (document (toggleModule index p)) p
  ∧ (presentation index p = None → toggleModule index p = p)
  ∧ ∀ id,
      match getElementById id p, getElementById id (toggleModule index p) with
      | Some e, Some e' =>
          Element.innerHTML e' = Element.innerHTML e
          ∧ Element.classList e' = Element.classList e
          ∧ (id ≠ "module-content-" +:+ showNat index → Element.display e' = Element.display e)
          ∧ (id ≠ "module-icon-" +:+ showNat index →
             Element.transform e' = Element.transform e)
      | None, None => True
      | _, _ => False
      end.
Proof.
  split; [apply toggleModule_fields|]. split.
  - unfold presentation, toggleModule.
    destruct (getElementById ("module-content-" +:+ showNat index) p); [|done].
    by destruct (getElementById ("module-icon-" +:+ showNat index) p).
  - intros id. pose proof (toggleModule_lookup index p id) as H.
    pose proof (content_icon_ids_apart index index) as Hne.
    unfold getElementById in *. rewrite H. clear H.
    destruct (document p !! ("module-content-" +:+ showNat index)) as [c|] eqn:Hc;
      [|by destruct (document p !! id)].
    destruct (document p !! ("module-icon-" +:+ showNat index)) as [i|] eqn:Hi;
      [|by destruct (document p !! id)].
    unfold toggle_elements. simpl.
    repeat case_decide; subst; rewrite ?Hc, ?Hi;
      first [ by destruct (String.eqb (Element.display c) "none")
            | by destruct (document p !! id) ].
Qed.

(** ** The active link: edge cases *)

(** Either no section's tested band holds the offset, or there is a last
    section whose band does. *)
Lemma last_section_in_band (y : Z) (secs : list PageSection.t) :
  (∀ s, s ∈ secs → in_tested_band y s = false)
  ∨ ∃ before section after,
      secs = before ++ section :: after
      ∧ in_tested_band y section = true
      ∧ ∀ s, s ∈ after → in_tested_band y s = false.
Proof.
  induction secs as [|s secs IH].
  - left. by intros s Hs%elem_of_nil.
  - destruct IH as [Hnone|(before & section & after & -> & Hin & Hafter)].
    + destruct (in_tested_band y s) eqn:E.
      * right. by exists [], s, secs.
      * left. intros s' [->|Hs']%elem_of_cons; [done|by apply Hnone].
    + right. by exists (s :: before), section, after.
Qed.





(** Running [updateActiveNavLink] again at the same offset changes
    nothing more. *)
Theorem updateActiveNavLink_idempotent (p : Page) :
  updateActiveNavLink (updateActiveNavLink p) = updateActiveNavLink p.
Proof.
  rewrite (updateActiveNavLink_links (updateActiveNavLink p)).
  rewrite (updateActiveNavLink_links p). simpl.
  unfold set_navLinks. simpl. f_equal.
  destruct (last_section_in_band (scrollY p) (sections p))
    as [Hnone|(before & section & after & -> & Hin & Hafter)].
  - by rewrite !foldl_mark_none.
  - rewrite !foldl_mark_last by done.
    apply mark_section_same, mark_section_same_links.
Qed.

Lemma classList_remove_other (c d : string) (l : list string) :
  c ≠ d → classList_contains c (classList_remove d l) = classList_contains c l.
Proof.
  intros Hne. unfold classList_contains, classList_remove.
  apply bool_decide_ext. rewrite list_elem_of_filter. tauto.
Qed.

(** [updateActiveNavLink] touches nothing but the [active] class of the
    navigation links: the rest of the page is as before, the links are
    as many with the same [href]s, and each link has every class other
    than [active] exactly if it had it before. *)
Theorem updateActiveNavLink_touches_active_only (p : Page) :
  updateActiveNavLink p = set_navLinks (navLinks (updateActiveNavLink p)) p
  ∧ length (navLinks (updateActiveNavLink p)) = length (navLinks p)
  ∧ ∀ k link', navLinks (updateActiveNavLink p) !! k = Some link' →
      ∃ link, navLinks p !! k = Some link
              ∧ NavLink.href link' = NavLink.href link
              ∧ ∀ c, c ≠ "active" →
                  classList_contains c (NavLink.classList link')
                  = classList_contains c (NavLink.classList link).
Proof.
  rewrite updateActiveNavLink_links. simpl.
  destruct (foldl_mark_same_links (scrollY p) (navLinks p) (sections p)) as [Hh Hc].
  set (links' := foldl _ (navLinks p) (sections p)) in *.
  split; [done|]. split.
  - by rewrite <- (length_fmap NavLink.href links'), Hh, length_fmap.
  - intros k link' Hk.
    assert (NavLink.href <$> links' !! k = NavLink.href <$> navLinks p !! k) as Hhk
      by (by rewrite <- !list_lookup_fmap, Hh).
    assert (navLink_update (classList_remove "active") <$> links' !! k
            = navLink_update (classList_remove "active") <$> navLinks p !! k) as Hck
      by (by rewrite <- !list_lookup_fmap, Hc).
    rewrite Hk in Hhk, Hck. destruct (navLinks p !! k) as [link|]; [|done].
    simpl in Hhk, Hck. exists link. split; [done|]. split; [congruence|].
    intros c Hne. destruct link as [h l], link' as [h' l'].
    unfold navLink_update in Hck. simpl in *. injection Hck as _ Hl.
    by rewrite <- (classList_remove_other c "active" l'), Hl, classList_remove_other.
Qed.

(** ** Scrolling and the menu *)

Lemma classList_call_lookup (id : string) (f : list string → list string) (p : Page)
    (k : string) :
  getElementById k (classList_call (Some id) f p).2
  = if decide (k = id)
    then (λ e, Element.set_classList (f (Element.classList e)) e) <$> getElementById k p
    else getElementById k p.
Proof.
  unfold classList_call, modify, getElementById. simpl. case_decide as Hk.
  - subst. by rewrite lookup_alter_eq.
  - by rewrite lookup_alter_ne.
Qed.

Lemma BackToTopScroll_frame (p : Page) (id : string) :
  id ≠ "backToTop" →
  run_handler (BackToTopScroll (Some "backToTop")) p
  = (Normal tt, (run_handler (BackToTopScroll (Some "backToTop")) p).2)
  ∧ getElementById id (run_handler (BackToTopScroll (Some "backToTop")) p).2
    = getElementById id p
  ∧ navLinks (run_handler (BackToTopScroll (Some "backToTop")) p).2 = navLinks p.
Proof.
  intros Hne. cbn [run_handler]. cbv [mbind mret JS_bind JS_ret get].
  destruct (500 <? scrollY p)%Z; (split; [done|]);
    rewrite classList_call_lookup, decide_False by done; done.
Qed.

(** The listeners a scroll runs after the navigation's own: the
    back-to-top one, if any. It does not throw, and it leaves every
    element but the button and all links alone. *)
Lemma after_NavScroll (p : Page) (acc : list Error * Page) (id : string) :
  id ≠ "backToTop" →
  let final :=
    foldl run_listener acc
      (if negb (is_null (getRef "backToTop" p))
       then [mkListener OnWindow Scroll (BackToTopScroll (getRef "backToTop" p))]
       else []) in
  final.1 = acc.1
  ∧ getElementById id final.2 = getElementById id acc.2
  ∧ navLinks final.2 = navLinks acc.2.
Proof.
  intros Hne. unfold getRef.
  destruct (getElementById "backToTop" p); simpl; [|done].
  unfold run_listener. cbn [l_handler].
  destruct (BackToTopScroll_frame acc.2 id Hne) as (E & Hd & Hl).
  rewrite E. done.
Qed.



(** On a page without a navbar every scroll event makes the navigation's
    listener throw a [TypeError] before it reaches
    [updateActiveNavLink]: one error is reported and the navigation
    links are never updated, wherever the page is scrolled to. *)
Theorem scroll_without_navbar (p q : Page) (y : Z) :
  getElementById "navbar" p = None →
  (scroll_event (page_listeners p) y q).1 = [TypeError]
  ∧ navLinks (scroll_event (page_listeners p) y q).2 = navLinks q.
Proof.
  intros Hb. unfold scroll_event.
  rewrite dispatch_listens, scroll_listeners. cbn [foldl].
  destruct (after_NavScroll p
              (run_listener ([], set_scrollY y q)
                 (mkListener OnWindow Scroll (NavScroll (getRef "navbar" p)))) "navbar")
    as (-> & _ & ->); [done|].
  unfold getRef. rewrite Hb. unfold run_listener. cbn [l_handler snd run_handler].
  cbv [mbind mret JS_bind JS_ret get modify classList_call throw].
  by destruct (100 <? scrollY (set_scrollY y q))%Z.
Qed.

Lemma scroll_without_navbar_witness :
  (scroll_event (page_listeners no_navbar_page) 20 no_navbar_page).1 = [TypeError]
  ∧ navLinks (scroll_event (page_listeners no_navbar_page) 20 no_navbar_page).2
    = navLinks no_navbar_page.
Proof. apply scroll_without_navbar. reflexivity. Defined.

Lemma classList_contains_toggle (c : string) (l : list string) :
  classList_contains c (classList_toggle c l) = negb (classList_contains c l).
Proof.
  unfold classList_toggle. destruct (classList_contains c l) eqn:E; simpl.
  - apply classList_contains_remove.
  - apply classList_contains_add.
Qed.

(** A click on the menu toggle flips the class [active] on the toggle
    and on the menu, each by itself, and throws nothing. *)
Theorem menu_toggle_click_flips (p q : Page) (toggle menu : Element.t) :
  is_Some (getElementById "navToggle" p) →
  is_Some (getElementById "navMenu" p) →
  getElementById "navToggle" q = Some toggle →
  getElementById "navMenu" q = Some menu →
  ∃ q' toggle' menu',
    dispatch (page_listeners p) OnNavToggle Click q = ([], q')
    ∧ getElementById "navToggle" q' = Some toggle'
    ∧ getElementById "navMenu" q' = Some menu'
    ∧ classList_contains "active" (Element.classList toggle')
      = negb (classList_contains "active" (Element.classList toggle))
    ∧ classList_contains "active" (Element.classList menu')
      = negb (classList_contains "active" (Element.classList menu)).
Proof.
  intros [t Ht] [m Hm] Hqt Hqm.
  rewrite dispatch_listens, navToggle_click_listeners.
  unfold getRef. rewrite Ht, Hm. simpl.
  eexists _, _, _. split; [done|]. unfold getElementById in *. simpl.
  rewrite lookup_alter_ne, !lookup_alter_eq, lookup_alter_ne, Hqt, Hqm by done.
  simpl. split; [done|]. split; [done|].
  destruct toggle, menu. cbn [Element.classList Element.set_classList].
  by rewrite !classList_contains_toggle.
Qed.

Lemma menu_toggle_click_flips_witness :
  ∃ q' toggle' menu',
    dispatch (page_listeners open_menu_page) OnNavToggle Click open_menu_page = ([], q')
    ∧ getElementById "navToggle" q' = Some toggle'
    ∧ getElementById "navMenu" q' = Some menu'
    ∧ classList_contains "active" (Element.classList toggle') = negb true
    ∧ classList_contains "active" (Element.classList menu') = negb true.
Proof.
  apply (menu_toggle_click_flips open_menu_page open_menu_page
           (Element.mk EmptyString ["nav-toggle"; "active"] EmptyString EmptyString)
           (Element.mk EmptyString ["nav-menu"; "active"] EmptyString EmptyString));
    first [ by eexists | reflexivity ].
Defined.

(** A click on a navigation link closes the menu from any state: when
    the toggle and the menu exist, neither has the class [active]
    afterwards, their other classes are kept and nothing is thrown. *)
Theorem navLink_click_forces_closed (p q : Page) (i : nat) (toggle menu : Element.t) :
  i < length (navLinks p) →
  is_Some (getElementById "navToggle" p) →
  is_Some (getElementById "navMenu" p) →
  getElementById "navToggle" q = Some toggle →
  getElementById "navMenu" q = Some menu →
  ∃ q',
    dispatch (page_listeners p) (OnNavLink i) Click q = ([], q')
    ∧ getElementById "navToggle" q'
      = Some (Element.set_classList (classList_remove "active" (Element.classList toggle)) toggle)
    ∧ getElementById "navMenu" q'
      = Some (Element.set_classList (classList_remove "active" (Element.classList menu)) menu)
    ∧ navLinks q' = navLinks q.
Proof.
  intros Hi [t Ht] [m Hm] Hqt Hqm.
  rewrite dispatch_listens, navLink_click_listeners by done.
  unfold getRef. rewrite Ht, Hm. simpl.
  eexists. split; [done|]. unfold getElementById in *. simpl.
  rewrite lookup_alter_ne, !lookup_alter_eq, lookup_alter_ne, Hqt, Hqm by done.
  done.
Qed.

Lemma navLink_click_forces_closed_witness :
  ∃ q',
    dispatch (page_listeners open_menu_page) (OnNavLink 0) Click open_menu_page = ([], q')
    ∧ getElementById "navToggle" q'
      = Some (Element.mk EmptyString ["nav-toggle"] EmptyString EmptyString)
    ∧ getElementById "navMenu" q'
      = Some (Element.mk EmptyString ["nav-menu"] EmptyString EmptyString)
    ∧ navLinks q' = navLinks open_menu_page.
Proof.
  apply (navLink_click_forces_closed open_menu_page open_menu_page 0
           (Element.mk EmptyString ["nav-toggle"; "active"] EmptyString EmptyString)
           (Element.mk EmptyString ["nav-menu"; "active"] EmptyString EmptyString));
    first [ by eexists | reflexivity | simpl; lia ].
Defined.

(** With the toggle on the page and no menu, a click on a navigation
    link takes [active] off the toggle and then throws a [TypeError] at
    [navMenu.classList]: what was written before the throw stays. *)
Theorem navLink_click_without_menu (p q : Page) (i : nat) (toggle : Element.t) :
  i < length (navLinks p) →
  is_Some (getElementById "navToggle" p) →
  getElementById "navMenu" p = None →
  getElementById "navToggle" q = Some toggle →
  ∃ q',
    dispatch (page_listeners p) (OnNavLink i) Click q = ([TypeError], q')
    ∧ getElementById "navToggle" q'
      = Some (Element.set_classList (classList_remove "active" (Element.classList toggle)) toggle)
    ∧ ∀ id, id ≠ "navToggle" → getElementById id q' = getElementById id q.
Proof.
  intros Hi [t Ht] Hm Hqt.
  rewrite dispatch_listens, navLink_click_listeners by done.
  unfold getRef. rewrite Ht, Hm. simpl.
  eexists. split; [done|]. unfold getElementById in *. simpl.
  rewrite lookup_alter_eq, Hqt. split; [done|].
  intros id Hid. by rewrite lookup_alter_ne.
Qed.

Lemma navLink_click_without_menu_witness :
  ∃ q',
    dispatch (page_listeners no_menu_page) (OnNavLink 0) Click no_menu_page
    = ([TypeError], q')
    ∧ getElementById "navToggle" q'
      = Some (Element.mk EmptyString ["nav-toggle"] EmptyString EmptyString)
    ∧ ∀ id, id ≠ "navToggle" → getElementById id q' = getElementById id no_menu_page.
Proof.
  apply (navLink_click_without_menu no_menu_page no_menu_page 0
           (Element.mk EmptyString ["nav-toggle"; "active"] EmptyString EmptyString));
    first [ by eexists | reflexivity | simpl; lia ].
Defined.

(** ** Counters in general *)






















Lemma animated_once_callback (entries : list Entry.t) (st : Counters) :
  NoDup (Entry.target <$> entries) →
  (∀ e, e ∈ entries → Entry.target e ∉ animated st) →
  animated_once st →
  animated_once (observer_callback entries st).
Proof.
  unfold observer_callback. revert st.
  induction entries as [|e entries IH]; intros st Hnd Hnew Hst; [done|].
  rewrite fmap_cons in Hnd. apply NoDup_cons in Hnd as [He Hnd]. simpl.
  destruct (Entry.isIntersecting e).
  - destruct (updateCount_observer (Entry.target e)
                (mkCounters (counters st) (observed st) (timers st)
                            (animated st ++ [Entry.target e]))) as [Ho Ha].
    destruct Hst as [Hst1 Hst2].
    apply IH; [done| |].
    + intros e' He'. unfold unobserve, animateCounter. simpl. rewrite Ha. simpl.
      intros [H|H%list_elem_of_singleton]%elem_of_app.
      * apply (Hnew e'); [by right|done].
      * apply He. rewrite <- H. by apply list_elem_of_fmap_2.
    + unfold animated_once, unobserve, animateCounter. simpl. rewrite Ha, Ho. simpl.
      split.
      * apply NoDup_app. split; [done|]. split; [|apply NoDup_singleton].
        intros i Hi ->%list_elem_of_singleton. apply (Hnew e); [by left|done].
      * intros i [Hi|Hi%list_elem_of_singleton]%elem_of_app
               [Hne Hobs]%list_elem_of_filter; [|done].
        by apply (Hst2 i).
  - apply IH; [done| |done]. intros e' He'. apply Hnew. by right.
Qed.

Lemma animated_once_step (st : Counters) (ev : BrowserStep) :
  distinct_targets ev → animated_once st → animated_once (browser_step st ev).
Proof.
  intros Hev Hst. destruct ev as [entries|]; simpl.
  - apply animated_once_callback; [| |done].
    + eapply sublist_NoDup; [exact Hev|]. apply fmap_sublist, sublist_filter.
    + intros e [He _]%list_elem_of_filter Ha. by apply (proj2 Hst _ Ha).
  - destruct (timers st) as [|j rest]; [done|].
    destruct (updateCount_observer j
                (mkCounters (counters st) (observed st) rest (animated st))) as [Ho Ha].
    unfold animated_once. rewrite Ho, Ha. exact Hst.
Qed.

(** As long as no report of the observer names a target twice, every
    counter is animated at most once, and an animated counter is no
    longer observed. *)
Theorem counter_animated_at_most_once (cs : list Counter.t) (evs : list BrowserStep) :
  Forall distinct_targets evs →
  NoDup (animated (browser_run (initCounters cs) evs))
  ∧ ∀ i, i ∈ animated (browser_run (initCounters cs) evs) →
         i ∉ observed (browser_run (initCounters cs) evs).
Proof.
  intros Hevs. change (animated_once (browser_run (initCounters cs) evs)).
  assert (animated_once (initCounters cs)) as Hst.
  { split; [apply NoDup_nil_2|]. by intros i H%elem_of_nil. }
  revert Hst. generalize (initCounters cs). unfold browser_run.
  induction Hevs as [|ev evs Hev Hevs IH]; intros st Hst; [done|].
  simpl. by apply IH, animated_once_step.
Qed.

Lemma counter_animated_at_most_once_witness :
  NoDup (animated (browser_run (initCounters [Counter.mk 0 80; Counter.mk 0 120])
           [Notify [Entry.mk 0 true; Entry.mk 1 false]; Timeout;
            Notify [Entry.mk 1 true; Entry.mk 0 true]]))
  ∧ ∀ i, i ∈ animated (browser_run (initCounters [Counter.mk 0 80; Counter.mk 0 120])
                [Notify [Entry.mk 0 true; Entry.mk 1 false]; Timeout;
                 Notify [Entry.mk 1 true; Entry.mk 0 true]]) →
         i ∉ observed (browser_run (initCounters [Counter.mk 0 80; Counter.mk 0 120])
                [Notify [Entry.mk 0 true; Entry.mk 1 false]; Timeout;
                 Notify [Entry.mk 1 true; Entry.mk 0 true]]).
Proof.
  apply counter_animated_at_most_once.
  repeat (apply Forall_cons_2 || apply Forall_nil_2); simpl;
    first [ exact I | apply (bool_decide_unpack _); by vm_compute ].
Defined.

(** A report that names a counter twice while it is in view starts its
    animation twice. *)
Example counter_reported_twice :
  animated (browser_run (initCounters [Counter.mk 0 80])
              [Notify [Entry.mk 0 true; Entry.mk 0 true]]) = [0; 0].
Proof. by vm_compute. Qed.

Lemma updateCount_kept (i : nat) (st : Counters) :
  (∀ j, Counter.data_count <$> counters (updateCount i st) !! j
        = Counter.data_count <$> counters st !! j)
  ∧ (∀ j, j ≠ i → counters (updateCount i st) !! j = counters st !! j)
  ∧ (∀ j, j ∈ timers (updateCount i st) → j ∈ timers st ∨ j = i).
Proof.
  unfold updateCount. destruct (counters st !! i) as [c|] eqn:Hc.
  - assert (∀ v j, Counter.data_count <$> alter (Counter.set_innerText v) i (counters st) !! j
                   = Counter.data_count <$> counters st !! j) as Hdata.
    { intros v j. destruct (decide (i = j)) as [<-|Hne].
      - rewrite list_lookup_alter_eq, Hc. done.
      - by rewrite list_lookup_alter_ne. }
    destruct (_ <? _)%Z; simpl; (split; [apply Hdata|]);
      (split; [intros j Hj; by rewrite list_lookup_alter_ne|]).
    + intros j [H|H%list_elem_of_singleton]%elem_of_app; tauto.
    + tauto.
  - split; [done|]. split; [done|]. tauto.
Qed.

Lemma counters_kept_refl (st : Counters) : counters_kept st st.
Proof. by split. Qed.

Lemma counters_kept_callback (entries : list Entry.t) (st : Counters) :
  timers_animated st →
  timers_animated (observer_callback entries st)
  ∧ (∀ i, i ∈ animated st → i ∈ animated (observer_callback entries st))
  ∧ counters_kept st (observer_callback entries st).
Proof.
  unfold observer_callback. revert st.
  induction entries as [|e entries IH]; intros st Hst; simpl.
  - split; [done|]. split; [done|]. apply counters_kept_refl.
  - destruct (Entry.isIntersecting e); [|by apply IH].
    set (st0 := mkCounters (counters st) (observed st) (timers st)
                           (animated st ++ [Entry.target e])).
    destruct (updateCount_observer (Entry.target e) st0) as [Ho Ha].
    destruct (updateCount_kept (Entry.target e) st0) as (Hd & Hother & Ht).
    set (st1 := unobserve (Entry.target e) (animateCounter (Entry.target e) st)).
    assert (animated st1 = animated st ++ [Entry.target e]) as Ha1
      by exact Ha.
    destruct (IH st1) as (Ht1 & Hmono & Hd1 & Htext1).
    { intros j Hj. rewrite Ha1. apply elem_of_app.
      destruct (Ht j Hj) as [H| ->]; [left; by apply Hst|right; by left]. }
    split; [done|]. split; [|split].
    + intros i Hi. apply Hmono. rewrite Ha1. apply elem_of_app. by left.
    + intros i. rewrite Hd1. apply Hd.
    + intros i Hi. rewrite Htext1 by done. apply Hother.
      intros ->. apply Hi, Hmono. rewrite Ha1. apply elem_of_app. right. by left.
Qed.

Lemma counters_kept_step (st : Counters) (ev : BrowserStep) :
  timers_animated st →
  timers_animated (browser_step st ev)
  ∧ (∀ i, i ∈ animated st → i ∈ animated (browser_step st ev))
  ∧ counters_kept st (browser_step st ev).
Proof.
  intros Hst. destruct ev as [entries|]; simpl.
  - by apply counters_kept_callback.
  - destruct (timers st) as [|j rest] eqn:Hts.
    + split; [done|]. split; [done|]. apply counters_kept_refl.
    + set (st0 := mkCounters (counters st) (observed st) rest (animated st)).
      destruct (updateCount_observer j st0) as [Ho Ha].
      destruct (updateCount_kept j st0) as (Hd & Hother & Ht).
      split; [|split; [|split]].
      * intros i Hi. rewrite Ha. simpl. apply Hst. rewrite Hts.
        destruct (Ht i Hi) as [H| ->]; [by right|by left].
      * intros i Hi. by rewrite Ha.
      * apply Hd.
      * intros i Hi. apply Hother. intros ->. apply Hi. rewrite Ha. simpl.
        apply Hst. rewrite Hts. by left.
Qed.

Lemma counters_kept_run (st : Counters) (evs : list BrowserStep) :
  timers_animated st →
  (∀ i, i ∈ animated st → i ∈ animated (browser_run st evs))
  ∧ counters_kept st (browser_run st evs).
Proof.
  unfold browser_run. revert st.
  induction evs as [|ev evs IH]; intros st Hst; simpl.
  - split; [done|]. apply counters_kept_refl.
  - destruct (counters_kept_step st ev Hst) as (Hst1 & Hmono1 & Hd1 & Htext1).
    destruct (IH _ Hst1) as (Hmono & Hd & Htext).
    split; [|split].
    + intros i Hi. by apply Hmono, Hmono1.
    + intros i. by rewrite Hd.
    + intros i Hi. rewrite Htext by done. apply Htext1.
      intros H. by apply Hi, Hmono.
Qed.

(** Whatever the browser reports and whichever timers fire, the script
    never changes a [data-count], and a counter for which
    [animateCounter] has not been called still shows its first text. *)
Theorem counter_untouched_until_animated (cs : list Counter.t) (evs : list BrowserStep) :
  (∀ i, Counter.data_count <$> counters (browser_run (initCounters cs) evs) !! i
        = Counter.data_count <$> cs !! i)
  ∧ (∀ i, i ∉ animated (browser_run (initCounters cs) evs) →
          counters (browser_run (initCounters cs) evs) !! i = cs !! i).
Proof.
  destruct (counters_kept_run (initCounters cs) evs) as (_ & Hd & Htext).
  - by intros j H%elem_of_nil.
  - by split.
Qed.

(** ** Scroll animations *)

Lemma classList_add_prefix (c : string) (l : list string) :
  l `prefix_of` classList_add c l.
Proof.
  unfold classList_add. destruct (classList_contains c l); [done|].
  by apply prefix_app_r.
Qed.

Lemma classList_contains_prefix (c : string) (l k : list string) :
  l `prefix_of` k → classList_contains c l = true → classList_contains c k = true.
Proof.
  intros [m ->]. unfold classList_contains. rewrite !bool_decide_eq_true.
  intros H. apply elem_of_app. by left.
Qed.

Lemma scroll_observer_callback_sticks (entries : list Entry.t)
    (elements : list (list string)) (i : nat) (cl : list string) :
  elements !! i = Some cl →
  ∃ cl', scroll_observer_callback entries elements !! i = Some cl'
    ∧ cl `prefix_of` cl'
    ∧ (classList_contains "animate" cl' = true
       ↔ classList_contains "animate" cl = true
         ∨ ∃ entry, entry ∈ entries
             ∧ Entry.target entry = i ∧ Entry.isIntersecting entry = true).
Proof.
  unfold scroll_observer_callback. revert elements cl.
  induction entries as [|e entries IH]; intros elements cl Hcl; simpl.
  - exists cl. split; [done|]. split; [done|]. split; [tauto|].
    intros [H|(e & H%elem_of_nil & _)]; done.
  - destruct (Entry.isIntersecting e) eqn:Hint;
      [destruct (decide (Entry.target e = i)) as [Hi|Hi]|].
    + destruct (IH (alter (classList_add "animate") (Entry.target e) elements)
                   (classList_add "animate" cl)) as (cl' & Hcl' & Hpre & Hiff).
      { by rewrite Hi, list_lookup_alter_eq, Hcl. }
      exists cl'. split; [done|]. split.
      { etrans; [apply classList_add_prefix|done]. }
      split.
      * intros _. right. exists e. split; [by left|done].
      * intros _. apply Hiff. left. apply classList_contains_add.
    + destruct (IH (alter (classList_add "animate") (Entry.target e) elements) cl)
        as (cl' & Hcl' & Hpre & Hiff).
      { by rewrite list_lookup_alter_ne. }
      exists cl'. split; [done|]. split; [done|]. rewrite Hiff. split.
      * intros [H|(e' & He' & H)]; [by left|]. right. exists e'. split; [by right|done].
      * intros [H|(e' & [->|He']%elem_of_cons & Ht & Hv)]; [by left|done|].
        right. by exists e'.
    + destruct (IH elements cl Hcl) as (cl' & Hcl' & Hpre & Hiff).
      exists cl'. split; [done|]. split; [done|]. rewrite Hiff. split.
      * intros [H|(e' & He' & H)]; [by left|]. right. exists e'. split; [by right|done].
      * intros [H|(e' & [->|He']%elem_of_cons & Ht & Hv)]; [by left|congruence|].
        right. by exists e'.
Qed.

(** An element animated on scroll keeps the classes it had, in their
    order, and has the class [animate] exactly when it had it from the
    start or some report of the observer has said that it intersects:
    once in view, it stays animated whatever is reported later. *)
Theorem scroll_animation_sticks (reports : list (list Entry.t))
    (elements : list (list string)) (i : nat) (cl : list string) :
  elements !! i = Some cl →
  ∃ cl', scroll_observer_run reports elements !! i = Some cl'
    ∧ cl `prefix_of` cl'
    ∧ (classList_contains "animate" cl' = true
       ↔ classList_contains "animate" cl = true ∨ reported_in_view i reports).
Proof.
  unfold scroll_observer_run, reported_in_view. revert elements cl.
  induction reports as [|entries reports IH]; intros elements cl Hcl; simpl.
  - exists cl. split; [done|]. split; [done|]. split; [tauto|].
    intros [H|(es & e & H%elem_of_nil & _)]; done.
  - destruct (scroll_observer_callback_sticks entries elements i cl Hcl)
      as (cl1 & Hcl1 & Hpre1 & Hiff1).
    destruct (IH _ cl1 Hcl1) as (cl' & Hcl' & Hpre & Hiff).
    exists cl'. split; [done|]. split; [by etrans|]. rewrite Hiff, Hiff1. split.
    + intros [[H|(e & He & H)]|(es & e & Hes & H)].
      * by left.
      * right. exists entries, e. split; [by left|done].
      * right. exists es, e. split; [by right|done].
    + intros [H|(es & e & [->|Hes]%elem_of_cons & He & H)].
      * left. by left.
      * left. right. by exists e.
      * right. by exists es, e.
Qed.

Lemma scroll_animation_sticks_witness :
  ∃ cl', scroll_observer_run
           [[Entry.mk 0 false; Entry.mk 1 true]; [Entry.mk 1 false]]
           [["animate-on-scroll"]; ["animate-on-scroll"; "card"]] !! 1 = Some cl'
    ∧ ["animate-on-scroll"; "card"] `prefix_of` cl'
    ∧ (classList_contains "animate" cl' = true
       ↔ classList_contains "animate" ["animate-on-scroll"; "card"] = true
         ∨ reported_in_view 1 [[Entry.mk 0 false; Entry.mk 1 true]; [Entry.mk 1 false]]).
Proof. by apply scroll_animation_sticks. Defined.
